(** * openai2anthropic: the request translator and the stream reframer

    A shallow embedding of [src/index.js] (a Cloudflare worker that lets
    Anthropic-style clients talk to an OpenAI-style backend) and the
    properties of its three translators:

    - [convertAnthropicToOpenAI]  (request translation),
    - [convertOpenAIToAnthropic]  (non-streaming response translation),
    - [processStream]             (the SSE reframer),

    together with the [fetch] handler that composes them.

    JavaScript values are modelled as they are at run time: strings are
    sequences of UTF-16 code units, request and response documents are JSON
    values with duck-typed property access, and an operation that throws
    returns [None].  The platform is modelled by what the program asks of
    it: [TextDecoder] and [JSON.parse] are written out, the backend call and
    the identifiers drawn from [crypto.randomUUID] are parameters, and a
    write to the client is the event appended to the output. *)

From Stdlib Require Import List NArith ZArith Bool Lia.
From Stdlib.Strings Require Import String Ascii Byte.
Import ListNotations.
Local Open Scope string_scope.
Local Open Scope list_scope.
Local Open Scope N_scope.

(* ================================================================== *)
(** * JavaScript values *)
(* ================================================================== *)

(** A JavaScript string: a sequence of UTF-16 code units. *)
Definition jsstring := list N.

(** A string literal of the source (all of them are ASCII). *)
Definition lit (s : string) : jsstring :=
  map N_of_ascii (list_ascii_of_string s).

Fixpoint jsstring_eqb (a b : jsstring) : bool :=
  match a, b with
  | [], [] => true
  | x :: a', y :: b' => (x =? y) && jsstring_eqb a' b'
  | _, _ => false
  end.

(** A number as [JSON.parse] reads it: the decimal [(-1)^neg * mant * 10^exp10].
    The engine rounds it to the nearest double, and the decimal stands here
    for that double: two decimals with the same nearest double are the same
    number to the program, and [JSON.stringify] prints the double (the
    shortest decimal that reads back as it, [null] when it is not finite),
    not the decimal that was read.  The only thing the program itself ever
    asks of a number is whether it is zero. *)
Record jsnum := { neg : bool; mant : N; exp10 : Z }.

Definition num_of_nat (n : nat) : jsnum :=
  {| neg := false; mant := N.of_nat n; exp10 := 0%Z |}.

(** The double nearest to the decimal is [0] or [-0]: the mantissa is zero,
    or the value is at most [2^-1075], half the least subnormal (the tie
    rounds to the even neighbour, which is zero). *)
Definition num_is_zero (n : jsnum) : bool :=
  (mant n =? 0) ||
  ((exp10 n <? 0)%Z &&
   (Z.of_N (mant n) * 2 ^ 1075 <=? 10 ^ (- exp10 n))%Z).

#[local] Set Warnings "-register-all".

Inductive jsval :=
| JUndefined
| JNull
| JBool (b : bool)
| JNum (n : jsnum)
| JStr (s : jsstring)
| JArr (elems : list jsval)
| JObj (fields : list (jsstring * jsval)).

(** ToBoolean. *)
Definition truthy (v : jsval) : bool :=
  match v with
  | JUndefined | JNull => false
  | JBool b => b
  | JNum n => negb (num_is_zero n)
  | JStr s => match s with [] => false | _ => true end
  | JArr _ | JObj _ => true
  end.

(** [a || b]. *)
Definition js_or (a b : jsval) : jsval := if truthy a then a else b.

(** [v === 'literal']. *)
Definition str_is (s : string) (v : jsval) : bool :=
  match v with
  | JStr t => jsstring_eqb t (lit s)
  | _ => false
  end.

(** [v === 0]. *)
Definition is_number_zero (v : jsval) : bool :=
  match v with
  | JNum n => num_is_zero n
  | _ => false
  end.

(** An own property of an object built by [JSON.parse]: of duplicate keys
    the last one wins. *)
Fixpoint lookup (k : jsstring) (fs : list (jsstring * jsval)) : option jsval :=
  match fs with
  | [] => None
  | (k', v) :: fs' =>
      match lookup k fs' with
      | Some w => Some w
      | None => if jsstring_eqb k k' then Some v else None
      end
  end.

Definition own (k : jsstring) (fs : list (jsstring * jsval)) : jsval :=
  match lookup k fs with Some v => v | None => JUndefined end.

(** ToPrimitive and ToString return for the value instead of throwing a
    TypeError.  A value read from JSON holds no function, so an object with
    an own property [toString] has no method to print it ([valueOf], own or
    inherited, never yields a primitive); an array prints its elements. *)
Fixpoint printable (v : jsval) : bool :=
  match v with
  | JArr l =>
      (fix all (l : list jsval) : bool :=
         match l with
         | [] => true
         | x :: l' => printable x && all l'
         end) l
  | JObj fs =>
      match lookup (lit "toString") fs with
      | Some _ => false
      | None => true
      end
  | _ => true
  end.

(** [v.name] for the property names the program reads ([role], [content],
    [type], [text], [choices], [delta], ...): none of them exists on a
    prototype, so only an object can have one.  Reading a property of
    [undefined] or [null] throws a TypeError ([None]). *)
Definition prop (name : string) (v : jsval) : option jsval :=
  match v with
  | JUndefined | JNull => None
  | JObj fs => Some (own (lit name) fs)
  | _ => Some JUndefined
  end.

(** [v?.name]. *)
Definition prop_opt (name : string) (v : jsval) : jsval :=
  match prop name v with Some w => w | None => JUndefined end.

(** [v.length]. *)
Definition length_of (v : jsval) : option jsval :=
  match v with
  | JUndefined | JNull => None
  | JStr s => Some (JNum (num_of_nat (List.length s)))
  | JArr l => Some (JNum (num_of_nat (List.length l)))
  | JObj fs => Some (own (lit "length") fs)
  | _ => Some JUndefined
  end.

(** [v[0]]. *)
Definition index0 (v : jsval) : option jsval :=
  match v with
  | JUndefined | JNull => None
  | JStr s => Some (match s with c :: _ => JStr [c] | [] => JUndefined end)
  | JArr l => Some (match l with x :: _ => x | [] => JUndefined end)
  | JObj fs => Some (own (lit "0") fs)
  | _ => Some JUndefined
  end.

(** The option monad threads a thrown exception through a computation. *)
Definition bind {A B} (x : option A) (f : A -> option B) : option B :=
  match x with Some a => f a | None => None end.

Notation "x <- e ;; k" := (bind e (fun x => k))
  (at level 61, e at next level, right associativity).
Notation "' pat <- e ;; k" := (bind e (fun x => let 'pat := x in k))
  (at level 61, pat pattern, e at next level, right associativity).

(* ------------------------------------------------------------------ *)
(** ** String methods *)

(** White space and line terminators, as [String.prototype.trim] strips. *)
Definition is_js_space (c : N) : bool :=
  ((9 <=? c) && (c <=? 13)) || (c =? 32) || (c =? 160) || (c =? 0x1680) ||
  ((0x2000 <=? c) && (c <=? 0x200A)) || (c =? 0x2028) || (c =? 0x2029) ||
  (c =? 0x202F) || (c =? 0x205F) || (c =? 0x3000) || (c =? 0xFEFF).

Fixpoint trim_start (s : jsstring) : jsstring :=
  match s with
  | c :: s' => if is_js_space c then trim_start s' else s
  | [] => []
  end.

Definition trim (s : jsstring) : jsstring :=
  rev (trim_start (rev (trim_start s))).

Fixpoint starts_with (p s : jsstring) : bool :=
  match p, s with
  | [], _ => true
  | x :: p', y :: s' => (x =? y) && starts_with p' s'
  | _ :: _, [] => false
  end.

(** [s.split(sep)] for a separator of one code unit: never empty, the last
    element is the text after the last separator. *)
Fixpoint split_on (sep : N) (s : jsstring) : list jsstring :=
  match s with
  | [] => [[]]
  | c :: s' =>
      if c =? sep then [] :: split_on sep s'
      else match split_on sep s' with
           | l :: ls => (c :: l) :: ls
           | [] => [[c]]
           end
  end.

(** [buffer.split('\n')]. *)
Definition split_lines (s : jsstring) : list jsstring := split_on 10 s.

(* ================================================================== *)
(** * TextDecoder: the streaming UTF-8 decoder *)
(* ================================================================== *)

(** [new TextDecoder()] is a UTF-8 decoder in replacement mode that strips a
    leading byte order mark; [decode(value, {stream: true})] keeps the
    decoder's state between calls.  The state and the handler follow the
    WHATWG Encoding standard. *)
Module TextDecoder.

Record state := {
  code_point : N;
  bytes_seen : N;
  bytes_needed : N;
  lower_boundary : N;
  upper_boundary : N;
  bom_seen : bool
}.

Definition fresh (bom : bool) : state :=
  {| code_point := 0; bytes_seen := 0; bytes_needed := 0;
     lower_boundary := 0x80; upper_boundary := 0xBF; bom_seen := bom |}.

Definition init : state := fresh false.

Definition lead (bom : bool) (cp needed lo hi : N) : state :=
  {| code_point := cp; bytes_seen := 0; bytes_needed := needed;
     lower_boundary := lo; upper_boundary := hi; bom_seen := bom |}.

Definition in_range (lo hi b : N) : bool := (lo <=? b) && (b <=? hi).

(** The handler with no sequence pending: the scalar values it emits
    ([0xFFFD] for an error) and the next state. *)
Definition start (bom : bool) (b : N) : state * list N :=
  if b <=? 0x7F then (fresh bom, [b])
  else if in_range 0xC2 0xDF b then (lead bom (N.land b 0x1F) 1 0x80 0xBF, [])
  else if in_range 0xE0 0xEF b then
    (lead bom (N.land b 0xF) 2
       (if b =? 0xE0 then 0xA0 else 0x80)
       (if b =? 0xED then 0x9F else 0xBF), [])
  else if in_range 0xF0 0xF4 b then
    (lead bom (N.land b 0x7) 3
       (if b =? 0xF0 then 0x90 else 0x80)
       (if b =? 0xF4 then 0x8F else 0xBF), [])
  else (fresh bom, [0xFFFD]).

(** One byte.  A byte outside the expected range ends the pending
    sequence with an error and is read again with no sequence pending. *)
Definition handler (st : state) (b : N) : state * list N :=
  if bytes_needed st =? 0 then start (bom_seen st) b
  else if negb (in_range (lower_boundary st) (upper_boundary st) b) then
    let '(st', out) := start (bom_seen st) b in (st', 0xFFFD :: out)
  else
    let cp := N.lor (N.shiftl (code_point st) 6) (N.land b 0x3F) in
    if bytes_seen st + 1 =? bytes_needed st then (fresh (bom_seen st), [cp])
    else ({| code_point := cp; bytes_seen := bytes_seen st + 1;
             bytes_needed := bytes_needed st;
             lower_boundary := 0x80; upper_boundary := 0xBF;
             bom_seen := bom_seen st |}, []).

(** Serialisation: the first scalar value of the stream is dropped when it
    is U+FEFF; a scalar value above U+FFFF becomes a surrogate pair. *)
Definition utf16 (cp : N) : jsstring :=
  if cp <? 0x10000 then [cp]
  else [0xD800 + N.shiftr (cp - 0x10000) 10;
        0xDC00 + N.land (cp - 0x10000) 0x3FF].

Fixpoint serialize (bom : bool) (out : list N) : bool * jsstring :=
  match out with
  | [] => (bom, [])
  | cp :: out' =>
      if bom then let '(b, s) := serialize true out' in (b, utf16 cp ++ s)
      else if cp =? 0xFEFF then serialize true out'
      else let '(b, s) := serialize true out' in (b, utf16 cp ++ s)
  end.

Definition set_bom (st : state) (bom : bool) : state :=
  {| code_point := code_point st; bytes_seen := bytes_seen st;
     bytes_needed := bytes_needed st;
     lower_boundary := lower_boundary st;
     upper_boundary := upper_boundary st; bom_seen := bom |}.

Definition step (st : state) (b : byte) : state * jsstring :=
  let '(st', out) := handler st (Byte.to_N b) in
  let '(bom, s) := serialize (bom_seen st') out in
  (set_bom st' bom, s).

(** [decoder.decode(value, {stream: true})]: the bytes of the chunk, in
    order; an incomplete sequence at the end stays in the state. *)
Fixpoint decode (st : state) (value : list byte) : state * jsstring :=
  match value with
  | [] => (st, [])
  | b :: value' =>
      let '(st1, s1) := step st b in
      let '(st2, s2) := decode st1 value' in
      (st2, s1 ++ s2)
  end.

End TextDecoder.

(* ================================================================== *)
(** * JSON.parse *)
(* ================================================================== *)

(** The JSON grammar of ECMA-404, read from a string of code units.
    [None] is a SyntaxError. *)
Module JSON.

Definition is_ws (c : N) : bool :=
  (c =? 32) || (c =? 9) || (c =? 10) || (c =? 13).

Fixpoint skip_ws (s : jsstring) : jsstring :=
  match s with
  | c :: s' => if is_ws c then skip_ws s' else s
  | [] => []
  end.

Definition is_digit (c : N) : bool := (48 <=? c) && (c <=? 57).

Definition hex_digit (c : N) : option N :=
  if is_digit c then Some (c - 48)
  else if (65 <=? c) && (c <=? 70) then Some (c - 55)
  else if (97 <=? c) && (c <=? 102) then Some (c - 87)
  else None.

Definition hex4 (a b c d : N) : option N :=
  x <- hex_digit a ;; y <- hex_digit b ;;
  z <- hex_digit c ;; w <- hex_digit d ;;
  Some (((x * 16 + y) * 16 + z) * 16 + w).

(** The character a one-letter escape stands for. *)
Definition unescape (c : N) : option N :=
  if c =? 34 then Some 34         (* quotation mark *)
  else if c =? 92 then Some 92    (* reverse solidus *)
  else if c =? 47 then Some 47    (* solidus *)
  else if c =? 98 then Some 8     (* b: backspace *)
  else if c =? 102 then Some 12   (* f: form feed *)
  else if c =? 110 then Some 10   (* n: line feed *)
  else if c =? 114 then Some 13   (* r: carriage return *)
  else if c =? 116 then Some 9    (* t: tab *)
  else None.

(** The characters of a string after its opening quote, up to and
    including the closing one. *)
Fixpoint string_body (s : jsstring) : option (jsstring * jsstring) :=
  match s with
  | [] => None
  | c :: s' =>
      if c =? 34 then Some ([], s')
      else if c =? 92 then
        match s' with
        | e :: s'' =>
            if e =? 117 then
              match s'' with
              | a :: b :: c' :: d :: r =>
                  u <- hex4 a b c' d ;;
                  '(t, rest) <- string_body r ;;
                  Some (u :: t, rest)
              | _ => None
              end
            else
              u <- unescape e ;;
              '(t, rest) <- string_body s'' ;;
              Some (u :: t, rest)
        | [] => None
        end
      else if c <? 32 then None
      else '(t, rest) <- string_body s' ;; Some (c :: t, rest)
  end.

(** The longest prefix of digits. *)
Fixpoint digits (s : jsstring) : list N * jsstring :=
  match s with
  | c :: s' =>
      if is_digit c then let '(ds, r) := digits s' in (c - 48 :: ds, r)
      else ([], s)
  | [] => ([], [])
  end.

Definition decimal (ds : list N) : N :=
  fold_left (fun acc d => acc * 10 + d) ds 0.

(** The text after the character [c], when the text starts with it. *)
Definition next (c : N) (s : jsstring) : option jsstring :=
  match s with
  | x :: r => if x =? c then Some r else None
  | [] => None
  end.

(** One or more digits. *)
Definition digits1 (s : jsstring) : option (list N * jsstring) :=
  match digits s with
  | ([], _) => None
  | (ds, r) => Some (ds, r)
  end.

(** A number: an optional minus sign; an integer part, [0] or a non-zero
    digit and more digits; an optional fraction, a point and one or more
    digits; an optional exponent, [e] or [E], a sign and digits. *)
Definition number (s : jsstring) : option (jsnum * jsstring) :=
  let '(sign, s1) :=
    match next 45 s with Some r => (true, r) | None => (false, s) end in
  '(int, s2) <- digits1 s1 ;;
  if starts_with [0] int && negb (Nat.eqb (List.length int) 1) then None
  else
    '(frac, s3) <-
      match next 46 s2 with
      | Some r => digits1 r
      | None => Some ([], s2)
      end ;;
    '(e, s4) <-
      match (match next 101 s3 with Some r => Some r | None => next 69 s3 end)
      with
      | Some r =>
          let '(esign, r1) :=
            match next 43 r with
            | Some r' => (false, r')
            | None =>
                match next 45 r with
                | Some r' => (true, r')
                | None => (false, r)
                end
            end in
          '(es, r2) <- digits1 r1 ;;
          let n := Z.of_N (decimal es) in
          Some (if esign then (- n)%Z else n, r2)
      | None => Some (0%Z, s3)
      end ;;
    Some ({| neg := sign; mant := decimal (int ++ frac);
             exp10 := (e - Z.of_nat (List.length frac))%Z |}, s4).

(** One of the words [null], [true], [false]. *)
Definition literal (word : string) (v : jsval) (s : jsstring)
  : option (jsval * jsstring) :=
  if starts_with (lit word) s
  then Some (v, skipn (List.length (lit word)) s)
  else None.

(** A value, by its first character; [elements] and [members] read what
    follows the bracket of an array and the brace of an object. *)
Definition value_body
    (elements : jsstring -> option (list jsval * jsstring))
    (members : jsstring -> option (list (jsstring * jsval) * jsstring))
    (s : jsstring) : option (jsval * jsstring) :=
  match s with
  | [] => None
  | c :: r =>
      if c =? 110 then literal "null" JNull s
      else if c =? 116 then literal "true" (JBool true) s
      else if c =? 102 then literal "false" (JBool false) s
      else if c =? 34 then
        '(t, rest) <- string_body r ;; Some (JStr t, rest)
      else if c =? 91 then
        match next 93 (skip_ws r) with
        | Some rest => Some (JArr [], rest)
        | None => '(vs, rest) <- elements (skip_ws r) ;; Some (JArr vs, rest)
        end
      else if c =? 123 then
        match next 125 (skip_ws r) with
        | Some rest => Some (JObj [], rest)
        | None => '(ms, rest) <- members (skip_ws r) ;; Some (JObj ms, rest)
        end
      else '(n, rest) <- number s ;; Some (JNum n, rest)
  end.

(** The elements of an array, up to and including its closing bracket. *)
Definition elements_body
    (value : jsstring -> option (jsval * jsstring))
    (elements : jsstring -> option (list jsval * jsstring))
    (s : jsstring) : option (list jsval * jsstring) :=
  '(v, r) <- value (skip_ws s) ;;
  match next 44 (skip_ws r) with
  | Some r' => '(vs, rest) <- elements r' ;; Some (v :: vs, rest)
  | None => rest <- next 93 (skip_ws r) ;; Some ([v], rest)
  end.

(** The members of an object, up to and including its closing brace. *)
Definition members_body
    (value : jsstring -> option (jsval * jsstring))
    (members : jsstring -> option (list (jsstring * jsval) * jsstring))
    (s : jsstring) : option (list (jsstring * jsval) * jsstring) :=
  r <- next 34 (skip_ws s) ;;
  '(k, r1) <- string_body r ;;
  r2 <- next 58 (skip_ws r1) ;;
  '(v, r3) <- value (skip_ws r2) ;;
  match next 44 (skip_ws r3) with
  | Some r4 => '(ms, rest) <- members r4 ;; Some ((k, v) :: ms, rest)
  | None => rest <- next 125 (skip_ws r3) ;; Some ([(k, v)], rest)
  end.

(** The three readers, by the number of nested calls allowed.  A call
    reads at least one character before the next one is made, so
    [2 * length + 2] calls are enough ([value_fuel] below). *)
Fixpoint value (fuel : nat) (s : jsstring) {struct fuel}
  : option (jsval * jsstring) :=
  match fuel with
  | O => None
  | S f => value_body (elements f) (members f) s
  end

with elements (fuel : nat) (s : jsstring) {struct fuel}
  : option (list jsval * jsstring) :=
  match fuel with
  | O => None
  | S f => elements_body (value f) (elements f) s
  end

with members (fuel : nat) (s : jsstring) {struct fuel}
  : option (list (jsstring * jsval) * jsstring) :=
  match fuel with
  | O => None
  | S f => members_body (value f) (members f) s
  end.

(** [JSON.parse(text)]. *)
Definition parse (text : jsstring) : option jsval :=
  '(v, rest) <- value (2 * List.length text + 2) (skip_ws text) ;;
  match skip_ws rest with
  | [] => Some v
  | _ => None
  end.

End JSON.

(* ================================================================== *)
(** * The stream reframer *)
(* ================================================================== *)

(** [mapStopReason]: the switch compares with [===]; any other value,
    of any type, is returned as it is. *)
Definition mapStopReason (finishReason : jsval) : jsval :=
  if str_is "stop" finishReason then JStr (lit "end_turn")
  else if str_is "length" finishReason then JStr (lit "max_tokens")
  else if str_is "content_filter" finishReason then JStr (lit "stop_sequence")
  else finishReason.

(** The four objects [processStream] writes.  Each is written as
    [data: <JSON>\n\n]; the fields that never vary are left to
    [event_json].  An event is the object handed to [JSON.stringify]: a
    string in it is written as it is, a number as the double it stands
    for. *)
Inductive event :=
| message_start (id : jsstring)
| content_block_delta (text : jsval)
| message_delta (stop_reason : jsval)
| message_stop.

Definition obj (fields : list (string * jsval)) : jsval :=
  JObj (map (fun kv => (lit (fst kv), snd kv)) fields).

Definition str (s : string) : jsval := JStr (lit s).

Definition event_json (e : event) : jsval :=
  match e with
  | message_start id =>
      obj [("type", str "message_start");
           ("message", obj [("id", JStr id); ("type", str "message");
                            ("role", str "assistant"); ("content", str "");
                            ("model", str "claude-proxy")])]
  | content_block_delta text =>
      obj [("type", str "content_block_delta");
           ("delta", obj [("type", str "text_delta"); ("text", text)]);
           ("index", JNum (num_of_nat 0))]
  | message_delta stop_reason =>
      obj [("type", str "message_delta");
           ("delta", obj [("stop_reason", stop_reason)])]
  | message_stop => obj [("type", str "message_stop")]
  end.

Inductive event_type :=
| MessageStart | ContentBlockDelta | MessageDelta | MessageStop.

Definition type_of (e : event) : event_type :=
  match e with
  | message_start _ => MessageStart
  | content_block_delta _ => ContentBlockDelta
  | message_delta _ => MessageDelta
  | message_stop => MessageStop
  end.

Definition event_type_eqb (a b : event_type) : bool :=
  match a, b with
  | MessageStart, MessageStart | ContentBlockDelta, ContentBlockDelta
  | MessageDelta, MessageDelta | MessageStop, MessageStop => true
  | _, _ => false
  end.

Definition has_type (t : event_type) (e : event) : bool :=
  event_type_eqb (type_of e) t.

(** The variables of [processStream].  [contentAccumulator] is only ever
    appended to and never read: it is kept as the list of the pieces
    appended, in order. *)
Record stream_state := {
  decoder : TextDecoder.state;
  buffer : jsstring;
  sentHeader : bool;
  contentAccumulator : list jsval
}.

Definition stream_init : stream_state :=
  {| decoder := TextDecoder.init; buffer := []; sentHeader := false;
     contentAccumulator := [] |}.

(** What the body of the [try] reads from a payload before it writes:
    [delta] and [json.choices[0]?.finish_reason].  [None] when
    [JSON.parse], [json.choices[0]] or [contentAccumulator += delta]
    throws; the last one does when [delta] cannot be made a string. *)
Definition read_record (data : jsstring) : option (jsval * jsval) :=
  json <- JSON.parse data ;;
  choices <- prop "choices" json ;;
  choice <- index0 choices ;;
  let delta := js_or (prop_opt "content" (prop_opt "delta" choice)) (str "") in
  if printable delta
  then Some (delta, prop_opt "finish_reason" choice)
  else None.

(** The events of one record, given whether the header was sent. *)
Definition record_events (messageId : jsstring) (sent : bool)
    (delta finish_reason : jsval) : list event :=
  (if sent then [] else [message_start messageId]) ++
  (if truthy delta then [content_block_delta delta] else []) ++
  (if truthy finish_reason
   then [message_delta (mapStopReason finish_reason); message_stop]
   else []).

(** The payload of a line: [None] for a line that does not start with
    [data:] and for the [[DONE]] sentinel. *)
Definition payload (line : jsstring) : option jsstring :=
  if negb (starts_with (lit "data:") line) then None
  else
    let data := trim (skipn 5 line) in
    if jsstring_eqb data (lit "[DONE]") then None else Some data.

(** The body of the [for] loop over the complete lines. *)
Definition process_line (messageId : jsstring) (st : stream_state)
    (line : jsstring) : stream_state * list event :=
  match payload line with
  | None => (st, [])
  | Some data =>
      match read_record data with
      | None => (st, [])           (* caught and logged *)
      | Some (delta, finish_reason) =>
          ({| decoder := decoder st; buffer := buffer st;
              sentHeader := true;
              contentAccumulator := contentAccumulator st ++ [delta] |},
           record_events messageId (sentHeader st) delta finish_reason)
      end
  end.

Fixpoint process_lines (messageId : jsstring) (st : stream_state)
    (lines : list jsstring) : stream_state * list event :=
  match lines with
  | [] => (st, [])
  | line :: lines' =>
      let '(st1, out1) := process_line messageId st line in
      let '(st2, out2) := process_lines messageId st1 lines' in
      (st2, out1 ++ out2)
  end.

(** The body of the [while] loop: one chunk read from the backend. *)
Definition process_chunk (messageId : jsstring) (st : stream_state)
    (value : list byte) : stream_state * list event :=
  let '(dec, text) := TextDecoder.decode (decoder st) value in
  let lines := split_lines (buffer st ++ text) in
  process_lines messageId
    {| decoder := dec; buffer := last lines [];
       sentHeader := sentHeader st;
       contentAccumulator := contentAccumulator st |}
    (removelast lines).

Fixpoint process_chunks (messageId : jsstring) (st : stream_state)
    (chunks : list (list byte)) : stream_state * list event :=
  match chunks with
  | [] => (st, [])
  | value :: chunks' =>
      let '(st1, out1) := process_chunk messageId st value in
      let '(st2, out2) := process_chunks messageId st1 chunks' in
      (st2, out1 ++ out2)
  end.

(** [processStream]: the events written for the chunks the reader yields
    until it is done; [messageId] is the identifier drawn at the start. *)
Definition processStream (messageId : jsstring) (chunks : list (list byte))
  : list event :=
  snd (process_chunks messageId stream_init chunks).

(* ================================================================== *)
(** * The request translator *)
(* ================================================================== *)

(** The configuration the worker reads from [env]: a variable is a string
    or is not set. *)
Record environment := {
  OPENAI_API_URL : option jsstring;
  OPENAI_API_KEY : option jsstring;
  OPENAI_MODEL_ID : option jsstring;
  ANTHROPIC_API_KEYS : option jsstring
}.

Definition env_value (v : option jsstring) : jsval :=
  match v with Some s => JStr s | None => JUndefined end.

(** The backend request: the object literal [{ role, content }] and the
    object [openaiRequest], whose sampling parameters are set only when
    the caller gave them. *)
Module OpenAI.

Record message := { role : jsval; content : jsval }.

Record request := {
  model : jsval;
  messages : list message;
  stream : bool;
  temperature : option jsval;
  max_tokens : option jsval;
  top_p : option jsval
}.

End OpenAI.

(** The unified response; [type], [role] and [stop_sequence] are the
    constants [message], [assistant] and [null]. *)
Module Anthropic.

Record response := {
  id : jsstring;
  content : jsval;
  model : jsval;
  stop_reason : jsval;
  input_tokens : jsval;
  output_tokens : jsval
}.

End Anthropic.

(** What [for (... of v)] iterates: the elements of an array, the code
    points of a string; anything else is not iterable (TypeError). *)
Definition is_high_surrogate (c : N) : bool := (0xD800 <=? c) && (c <=? 0xDBFF).
Definition is_low_surrogate (c : N) : bool := (0xDC00 <=? c) && (c <=? 0xDFFF).

Fixpoint code_points (s : jsstring) : list jsstring :=
  match s with
  | [] => []
  | c :: s' =>
      match s' with
      | d :: s'' =>
          if is_high_surrogate c && is_low_surrogate d
          then [c; d] :: code_points s''
          else [c] :: code_points s'
      | [] => [[c]]
      end
  end.

Definition iterate (v : jsval) : option (list jsval) :=
  match v with
  | JArr l => Some l
  | JStr s => Some (map JStr (code_points s))
  | _ => None
  end.

(** [prompt.split(/\n\nHuman: |\n\nAssistant: /)]: the text between the
    matches of either delimiter, found from left to right.  [skip] counts
    the characters of a matched delimiter still to pass, [cur] is the
    current segment, reversed. *)
Definition human_delimiter : jsstring := [10; 10] ++ lit "Human: ".
Definition assistant_delimiter : jsstring := [10; 10] ++ lit "Assistant: ".

Fixpoint split_turns_from (skip : nat) (cur : jsstring) (s : jsstring)
  : list jsstring :=
  match s with
  | [] => [rev cur]
  | c :: s' =>
      match skip with
      | S k => split_turns_from k cur s'
      | O =>
          if starts_with human_delimiter s then
            rev cur :: split_turns_from (List.length human_delimiter - 1) [] s'
          else if starts_with assistant_delimiter s then
            rev cur ::
            split_turns_from (List.length assistant_delimiter - 1) [] s'
          else split_turns_from 0 (c :: cur) s'
      end
  end.

Definition split_turns (prompt : jsstring) : list jsstring :=
  split_turns_from 0 [] prompt.

(** The loop over the segments of the prompt: a segment that is empty once
    trimmed is passed over and [isHuman] keeps its value. *)
Fixpoint prompt_messages (isHuman : bool) (parts : list jsstring)
  : list OpenAI.message :=
  match parts with
  | [] => []
  | p :: parts' =>
      let part := trim p in
      match part with
      | [] => prompt_messages isHuman parts'
      | _ =>
          {| OpenAI.role := if isHuman then str "user" else str "assistant";
             OpenAI.content := JStr part |}
          :: prompt_messages (negb isHuman) parts'
      end
  end.

Section Translation.

(** [Number::toString], the engine's shortest round-trip printing of a
    double.  It is needed only where a number stands in a text part. *)
Variable number_to_string : jsnum -> jsstring.

(** ToString of a value read from JSON; [None] is the TypeError for an
    object that has an own property [toString], which is not a function.
    An array prints as its elements joined by commas. *)
Fixpoint to_string (v : jsval) : option jsstring :=
  match v with
  | JUndefined => Some (lit "undefined")
  | JNull => Some (lit "null")
  | JBool b => Some (if b then lit "true" else lit "false")
  | JNum n => Some (number_to_string n)
  | JStr s => Some s
  | JArr l =>
      (fix join (l : list jsval) : option jsstring :=
         match l with
         | [] => Some []
         | x :: l' =>
             match match x with
                   | JUndefined | JNull => Some []
                   | _ => to_string x
                   end, join l' with
             | Some s, Some r =>
                 Some (s ++ match l' with [] => [] | _ => 44 :: r end)
             | _, _ => None
             end
         end) l
  | JObj fs =>
      match lookup (lit "toString") fs with
      | Some _ => None
      | None => Some (lit "[object Object]")
      end
  end.

(** [array.join('')]: [undefined] and [null] print as nothing; the
    exception of an element that cannot be printed is that of the join. *)
Fixpoint join_empty (l : list jsval) : option jsstring :=
  match l with
  | [] => Some []
  | x :: l' =>
      s <- match x with
           | JUndefined | JNull => Some []
           | _ => to_string x
           end ;;
      r <- join_empty l' ;;
      Some (s ++ r)
  end.

(** [parts.every((part) => part.type === 'text')], which stops at the
    first part that is not text. *)
Fixpoint every_text (parts : list jsval) : option bool :=
  match parts with
  | [] => Some true
  | part :: parts' =>
      t <- prop "type" part ;;
      if str_is "text" t then every_text parts' else Some false
  end.

(** [parts.map(f)], the first exception of [f] ending the loop. *)
Fixpoint map_throwing {A} (f : jsval -> option A) (l : list jsval)
  : option (list A) :=
  match l with
  | [] => Some []
  | x :: l' => y <- f x ;; ys <- map_throwing f l' ;; Some (y :: ys)
  end.

(** The callback that rewrites one part of a mixed content;
    [JNull] is what the [filter] drops afterwards. *)
Definition rewrite_part (part : jsval) : option jsval :=
  t <- prop "type" part ;;
  if str_is "text" t then
    text <- prop "text" part ;;
    Some (obj [("type", str "text"); ("text", text)])
  else if str_is "image" t then
    source <- prop "source" part ;;
    url <- prop "url" source ;;
    url_or_data <- (if truthy url then Some url else prop "data" source) ;;
    media_type <- prop "media_type" source ;;
    Some (obj [("type", str "image_url");
               ("image_url",
                obj [("url", url_or_data);
                     ("detail", if str_is "image/png" media_type
                                then str "high" else str "low")])])
  else Some JNull.

Definition not_null (v : jsval) : bool :=
  match v with JNull => false | _ => true end.

(** The content of the backend message. *)
Definition convert_content (content : jsval) : option jsval :=
  match content with
  | JStr _ => Some content
  | JArr parts =>
      onlyTextParts <- every_text parts ;;
      if onlyTextParts then
        texts <- map_throwing (prop "text") parts ;;
        joined <- join_empty texts ;;
        Some (JStr joined)
      else
        items <- map_throwing rewrite_part parts ;;
        Some (JArr (filter not_null items))
  | _ => Some JUndefined
  end.

(** [message.role === 'assistant' && message.content.length === 0]. *)
Definition empty_assistant (message : jsval) : option bool :=
  role <- prop "role" message ;;
  if str_is "assistant" role then
    content <- prop "content" message ;;
    len <- length_of content ;;
    Some (is_number_zero len)
  else Some false.

(** The body of the loop over the messages: [None] when it throws,
    [Some None] when the message is skipped. *)
Definition convert_message (message : jsval)
  : option (option OpenAI.message) :=
  skip <- empty_assistant message ;;
  if skip then Some None
  else
    role <- prop "role" message ;;
    content <- prop "content" message ;;
    converted <- convert_content content ;;
    Some (Some {| OpenAI.role := role; OpenAI.content := converted |}).

Fixpoint convert_messages (l : list jsval) : option (list OpenAI.message) :=
  match l with
  | [] => Some []
  | message :: l' =>
      m <- convert_message message ;;
      ms <- convert_messages l' ;;
      Some (match m with Some x => x :: ms | None => ms end)
  end.

(** The [messages] array of the backend request. *)
Definition build_messages (anthropicRequest : jsval)
  : option (list OpenAI.message) :=
  msgs <- prop "messages" anthropicRequest ;;
  if truthy msgs then
    l <- iterate msgs ;;
    messages <- convert_messages l ;;
    system <- prop "system" anthropicRequest ;;
    Some (if truthy system
          then {| OpenAI.role := str "system"; OpenAI.content := system |}
               :: messages
          else messages)
  else
    prompt <- prop "prompt" anthropicRequest ;;
    if truthy prompt then
      match prompt with
      | JStr p =>
          Some (prompt_messages (starts_with (lit "Human:") (trim p))
                                (split_turns p))
      | _ => None         (* no [split] method: TypeError *)
      end
    else Some [].

Definition defined (v : jsval) : option jsval :=
  match v with JUndefined => None | _ => Some v end.

Definition convertAnthropicToOpenAI (anthropicRequest : jsval)
    (env : environment) : option OpenAI.request :=
  messages <- build_messages anthropicRequest ;;
  stream <- prop "stream" anthropicRequest ;;
  temperature <- prop "temperature" anthropicRequest ;;
  max_tokens <- prop "max_tokens" anthropicRequest ;;
  top_p <- prop "top_p" anthropicRequest ;;
  Some {| OpenAI.model := env_value (OPENAI_MODEL_ID env);
          OpenAI.messages := messages;
          OpenAI.stream := truthy stream;
          OpenAI.temperature := defined temperature;
          OpenAI.max_tokens := defined max_tokens;
          OpenAI.top_p := defined top_p |}.

End Translation.

(* ================================================================== *)
(** * The response translator *)
(* ================================================================== *)

(** [messageId] is the identifier drawn for the response. *)
Definition convertOpenAIToAnthropic (messageId : jsstring)
    (openaiResponse originalRequest : jsval) : option Anthropic.response :=
  choices <- prop "choices" openaiResponse ;;
  choice <- index0 choices ;;
  message <- prop "message" choice ;;
  content <- prop "content" message ;;
  model <- prop "model" originalRequest ;;
  finish_reason <- prop "finish_reason" choice ;;
  usage <- prop "usage" openaiResponse ;;
  prompt_tokens <- prop "prompt_tokens" usage ;;
  completion_tokens <- prop "completion_tokens" usage ;;
  Some {| Anthropic.id := messageId;
          Anthropic.content := content;
          Anthropic.model := js_or model (str "claude-proxy");
          Anthropic.stop_reason := mapStopReason finish_reason;
          Anthropic.input_tokens := prompt_tokens;
          Anthropic.output_tokens := completion_tokens |}.

(* ================================================================== *)
(** * The handler *)
(* ================================================================== *)

(** What the handler reads of the inbound request: the method, the path of
    the URL, the [Authorization] header ([None] when there is none) and
    the text of the body. *)
Record http_request := {
  method : jsstring;
  pathname : jsstring;
  authorization : option jsstring;
  body : jsstring
}.

(** What the handler reads of the backend's response: [json] is what
    [openaiResponse.json()] resolves to ([None] when it rejects),
    [body_stream] the chunks its body yields. *)
Record backend_response := {
  ok : bool;
  status : N;
  json : option jsval;
  body_stream : list (list byte)
}.

(** The message of an error response, by the template it is built from:
    [OpenAIError detail] is the text [OpenAI API error: ] followed by
    [detail] printed, [ProcessingError] stands for the text of the
    exception caught. *)
Inductive error_message :=
| MissingAuthorization
| InvalidApiKey
| OpenAIError (detail : jsval)
| ProcessingError.

Inductive response :=
| Plain (code : N) (text : string)
| Error (code : N) (type : string) (message : error_message)
| JsonBody (data : Anthropic.response)
| EventStream (events : list event).

Definition ends_with (suffix s : jsstring) : bool :=
  starts_with (rev suffix) (rev s).

(** The checks before the [try]: the response of the first one that
    fails, [None] when the request passes them all. *)
Definition reject (request : http_request) (env : environment)
  : option response :=
  if negb (jsstring_eqb (method request) (lit "POST")) then
    Some (Plain 405 "Method not allowed")
  else if negb (ends_with (lit "/messages") (pathname request)) &&
          negb (ends_with (lit "/completions") (pathname request)) then
    Some (Plain 404 "Not found")
  else
    match authorization request with
    | None => Some (Error 401 "authentication_error" MissingAuthorization)
    | Some authHeader =>
        if negb (starts_with (lit "Bearer ") authHeader) then
          Some (Error 401 "authentication_error" MissingAuthorization)
        else
          let apiKey := skipn 7 authHeader in
          let validApiKeys :=
            match ANTHROPIC_API_KEYS env with
            | Some (c :: keys) => split_on 44 (c :: keys)
            | _ => []
            end in
          if (Nat.eqb (List.length validApiKeys) 0) ||
             negb (existsb (jsstring_eqb apiKey) validApiKeys) then
            Some (Error 401 "authentication_error" InvalidApiKey)
          else None
    end.

Section Handler.

Variable number_to_string : jsnum -> jsstring.

(** The backend call: [None] when [fetch] rejects. *)
Variable backend : OpenAI.request -> option backend_response.

(** The two identifiers the translators would draw. *)
Variable messageId : jsstring.

(** The body of the [try]; [None] is an exception for the [catch]. *)
Definition forward (request : http_request) (env : environment)
  : option response :=
  anthropicRequest <- JSON.parse (body request) ;;
  s <- prop "stream" anthropicRequest ;;
  let stream := match s with JBool true => true | _ => false end in
  openaiRequest <-
    convertAnthropicToOpenAI number_to_string anthropicRequest env ;;
  openaiResponse <- backend openaiRequest ;;
  if negb (ok openaiResponse) then
    error <- json openaiResponse ;;
    e <- prop "error" error ;;
    let detail := js_or (prop_opt "message" e) (str "Unknown error") in
    if printable detail
    then Some (Error (status openaiResponse) "proxy_error"
                 (OpenAIError detail))
    else None
  else if stream then
    Some (EventStream (processStream messageId (body_stream openaiResponse)))
  else
    openaiData <- json openaiResponse ;;
    anthropicResponse <-
      convertOpenAIToAnthropic messageId openaiData anthropicRequest ;;
    Some (JsonBody anthropicResponse).

Definition fetch (request : http_request) (env : environment) : response :=
  match reject request env with
  | Some r => r
  | None =>
      match forward request env with
      | Some r => r
      | None => Error 500 "proxy_error" ProcessingError
      end
  end.

End Handler.

(* ------------------------------------------------------------------ *)
(** ** Samples *)

Module Sample.

(** The bytes of an ASCII text in which an apostrophe stands for the
    quotation mark of JSON. *)
Definition bytes (s : string) : list byte :=
  map (fun a => if Ascii.eqb a "'"%char then x22 else byte_of_ascii a)
      (list_ascii_of_string s).

Definition text (s : string) : jsstring := map Byte.to_N (bytes s).

(** One line of the stream, with its line feed. *)
Definition line (s : string) : list byte := bytes s ++ [x0a].

Definition id : jsstring := lit "msg_0123456789abcdef0123456789abcdef".

(** The sample requests hold no number that would have to be printed. *)
Definition no_numbers (n : jsnum) : jsstring := [].

Definition env : environment :=
  {| OPENAI_API_URL := Some (lit "https://api.openai.com/v1/chat/completions");
     OPENAI_API_KEY := Some (lit "sk-backend");
     OPENAI_MODEL_ID := Some (lit "gpt-4o");
     ANTHROPIC_API_KEYS := Some (lit "sk-ant-one,sk-ant-two") |}.

(** An authorized request with the given body. *)
Definition post (body : string) : http_request :=
  {| method := lit "POST"; pathname := lit "/v1/messages";
     authorization := Some (lit "Bearer sk-ant-two");
     body := text body |}.

(** A backend that is down: the requests of the samples never reach it. *)
Definition no_backend (r : OpenAI.request) : option backend_response := None.

(** Requests in prompt form: two turns; a turn that is blank; a system
    text beside the prompt. *)
Definition prompt : jsstring :=
  human_delimiter ++ lit "Hi" ++ assistant_delimiter ++ lit "Hello".

Definition prompt_request : jsval := obj [("prompt", JStr prompt)].

Definition blank_turn_prompt : jsstring :=
  human_delimiter ++ lit " " ++ assistant_delimiter ++ lit "Hi".

Definition blank_turn_request : jsval :=
  obj [("prompt", JStr blank_turn_prompt)].

Definition prompt_system_request : jsval :=
  obj [("prompt", JStr prompt); ("system", str "Be brief")].

(** Requests in messages form. *)
Definition text_part (s : string) : jsval :=
  obj [("type", str "text"); ("text", str s)].

Definition message (role : string) (content : jsval) : jsval :=
  obj [("role", str role); ("content", content)].

Definition text_parts_request : jsval :=
  obj [("messages",
        JArr [message "user" (str "Hi");
              message "assistant"
                (JArr [text_part "Hello, "; text_part "world"]);
              message "user" (str "Bye")])].

Definition system_request : jsval :=
  obj [("messages", JArr [message "user" (str "Hi")]);
       ("system", str "Be brief")].

Definition empty_text_request : jsval :=
  obj [("messages",
        JArr [message "user" (str "Hi");
              message "assistant" (JArr [text_part ""])])].

Definition unknown_part_request : jsval :=
  obj [("messages",
        JArr [message "user" (str "Hi");
              message "assistant" (JArr [obj [("type", str "tool_use")]])])].

Definition skipped_request : jsval :=
  obj [("messages",
        JArr [message "user" (str "Hi");
              message "assistant" (JArr []);
              message "assistant" (str "");
              message "user" (JArr [])])].

Definition missing_content_request : jsval :=
  obj [("messages",
        JArr [message "user" (str "Hi");
              obj [("role", str "assistant")]])].

(** The backend request of a sample: the configured model, no streaming,
    no sampling parameter. *)
Definition backend_request (messages : list OpenAI.message) : OpenAI.request :=
  {| OpenAI.model := str "gpt-4o";
     OpenAI.messages := messages;
     OpenAI.stream := false;
     OpenAI.temperature := None;
     OpenAI.max_tokens := None;
     OpenAI.top_p := None |}.

Definition translated (role : string) (content : jsval) : OpenAI.message :=
  {| OpenAI.role := str role; OpenAI.content := content |}.

End Sample.

(* ------------------------------------------------------------------ *)
(** ** The stream as a sequence of lines and records *)

(** The text the decoder has produced once the reader is done, and its
    complete (line-feed terminated) lines. *)
Definition stream_text (chunks : list (list byte)) : jsstring :=
  snd (TextDecoder.decode TextDecoder.init (List.concat chunks)).

Definition complete (s : jsstring) : list jsstring :=
  removelast (split_lines s).

Definition partial (s : jsstring) : jsstring := last (split_lines s) [].

Definition stream_lines (chunks : list (list byte)) : list jsstring :=
  complete (stream_text chunks).

(** The state with another decoder and another buffer. *)
Definition set_io (d : TextDecoder.state) (b : jsstring) (st : stream_state)
  : stream_state :=
  {| decoder := d; buffer := b; sentHeader := sentHeader st;
     contentAccumulator := contentAccumulator st |}.

(** What a line contributes: [None] for a line that is skipped (no [data:]
    prefix, the sentinel, a payload that does not parse, a [choices] that
    cannot be indexed). *)
Definition line_record (line : jsstring) : option (jsval * jsval) :=
  data <- payload line ;; read_record data.

(** The record carries delta text or a finish signal. *)
Definition yields (line : jsstring) : bool :=
  match line_record line with
  | Some (delta, finish_reason) => truthy delta || truthy finish_reason
  | None => false
  end.

(** The events of a sequence of lines, given whether the header was sent. *)
Fixpoint lines_events (id : jsstring) (sent : bool) (lines : list jsstring)
  : list event :=
  match lines with
  | [] => []
  | line :: lines' =>
      match line_record line with
      | None => lines_events id sent lines'
      | Some (delta, finish_reason) =>
          record_events id sent delta finish_reason ++
          lines_events id true lines'
      end
  end.

(* ------------------------------------------------------------------ *)
(** ** The prompt as a sequence of turns, the messages that are kept *)

(** A segment of the prompt with nothing in it, and one that is empty
    once trimmed: nothing, or nothing but white space. *)
Definition is_nil {A} (l : list A) : bool :=
  match l with [] => true | _ => false end.

Definition empty_segment (s : jsstring) : bool := is_nil s.

Definition blank (s : jsstring) : bool := empty_segment (trim s).


(** A content part [{type: 'text', text: <string>}]. *)
Definition text_part (part : jsval) (text : jsstring) : Prop :=
  prop "type" part = Some (str "text") /\ prop "text" part = Some (JStr text).

(** The message is an assistant message whose content has length zero. *)
Definition skipped (message : jsval) : bool :=
  match empty_assistant message with
  | Some true => true
  | _ => false
  end.

(** [undefined] or [null]. *)
Definition nullish (v : jsval) : bool :=
  match v with JUndefined | JNull => true | _ => false end.

(* ------------------------------------------------------------------ *)
(** ** What the events carry *)

(** The texts of the [content_block_delta] events and the stop reasons of
    the [message_delta] events, in order. *)
Definition delta_texts (events : list event) : list jsval :=
  flat_map (fun e => match e with
                     | content_block_delta text => [text]
                     | _ => []
                     end) events.

Definition stop_reasons (events : list event) : list jsval :=
  flat_map (fun e => match e with
                     | message_delta stop_reason => [stop_reason]
                     | _ => []
                     end) events.

(** The string a value is, when it is one: what [JSON.stringify] writes
    of it is then the string itself. *)
Definition string_value (v : jsval) : option jsstring :=
  match v with
  | JStr s => Some s
  | _ => None
  end.

(** The truthy [delta]s and the truthy [finish_reason]s of the records that
    are read, in order. *)
Definition record_texts (lines : list jsstring) : list jsval :=
  flat_map (fun l => match line_record l with
                     | Some (delta, _) => if truthy delta then [delta] else []
                     | None => []
                     end) lines.

Definition record_finishes (lines : list jsstring) : list jsval :=
  flat_map (fun l => match line_record l with
                     | Some (_, finish_reason) =>
                         if truthy finish_reason then [finish_reason] else []
                     | None => []
                     end) lines.

(** Every [message_delta] is followed at once by a [message_stop], and no
    [message_stop] stands anywhere else. *)
Fixpoint closing_paired (events : list event) : bool :=
  match events with
  | [] => true
  | message_delta _ :: rest =>
      match rest with
      | message_stop :: rest' => closing_paired rest'
      | _ => false
      end
  | message_stop :: _ => false
  | _ :: rest => closing_paired rest
  end.

(** The chunk holds no line feed byte. *)
Definition no_line_feed (value : list byte) : bool :=
  forallb (fun b => negb (Byte.to_N b =? 10)) value.

(** What holds of the decoder between two bytes: with a sequence pending,
    the upper boundary is at most [0xBF], and the code point read so far
    is not zero unless only a lead byte [0xE0] or [0xF0] was read. *)
Definition decoder_ok (st : TextDecoder.state) : Prop :=
  TextDecoder.bytes_needed st = 0 \/
  (TextDecoder.upper_boundary st <= 0xBF /\
   (TextDecoder.code_point st <> 0 \/
    (TextDecoder.bytes_seen st = 0 /\ 2 <= TextDecoder.bytes_needed st /\
     0x90 <= TextDecoder.lower_boundary st))).

(* ------------------------------------------------------------------ *)
(** ** Requests that translate *)

(** A part [rewrite_part] can read: an object or a primitive, with a source
    to read when it is an image. *)
Definition safe_part (part : jsval) : bool :=
  negb (nullish part) &&
  (negb (str_is "image" (prop_opt "type" part)) ||
   negb (nullish (prop_opt "source" part))).

(** Every part is a text part. *)
Definition all_text (parts : list jsval) : bool :=
  forallb (fun part => str_is "text" (prop_opt "type" part)) parts.

(** Parts the translation can read: each of them, and, when they are all
    text parts, texts that [join] can print. *)
Definition safe_parts (parts : list jsval) : bool :=
  forallb safe_part parts &&
  (negb (all_text parts) ||
   forallb (fun part => printable (prop_opt "text" part)) parts).

(** A message the loop can read: not [null]; with a content to measure
    when its role is [assistant]; with parts that can be read when its
    content is a sequence. *)
Definition safe_message (message : jsval) : bool :=
  negb (nullish message) &&
  (negb (str_is "assistant" (prop_opt "role" message)) ||
   negb (nullish (prop_opt "content" message))) &&
  match prop_opt "content" message with
  | JArr parts => safe_parts parts
  | _ => true
  end.

(** A message whose content is a string, and that is not an assistant
    message with the empty string. *)
Definition plain_message (message : jsval) : bool :=
  match prop_opt "content" message with
  | JStr s =>
      negb (str_is "assistant" (prop_opt "role" message) && is_nil s)
  | _ => false
  end.

(** The message that copies the role and the content of a message. *)
Definition copied (message : jsval) : OpenAI.message :=
  {| OpenAI.role := prop_opt "role" message;
     OpenAI.content := prop_opt "content" message |}.

(** The system message of a request, when its [system] is truthy. *)
Definition system_messages (req : jsval) : list OpenAI.message :=
  if truthy (prop_opt "system" req)
  then [{| OpenAI.role := str "system";
           OpenAI.content := prop_opt "system" req |}]
  else [].

(** A conversation written in the legacy format: each turn after its
    delimiter, the speakers alternating. *)
Fixpoint render_turns (fromHuman : bool) (turns : list jsstring) : jsstring :=
  match turns with
  | [] => []
  | t :: turns' =>
      (if fromHuman then human_delimiter else assistant_delimiter) ++
      t ++ render_turns (negb fromHuman) turns'
  end.

(** The messages of such a conversation. *)
Fixpoint turn_messages (fromHuman : bool) (turns : list jsstring)
  : list OpenAI.message :=
  match turns with
  | [] => []
  | t :: turns' =>
      {| OpenAI.role := if fromHuman then str "user" else str "assistant";
         OpenAI.content := JStr (trim t) |}
      :: turn_messages (negb fromHuman) turns'
  end.

(** Keys written as the operator configures them: separated by commas. *)
Fixpoint join_commas (keys : list jsstring) : jsstring :=
  match keys with
  | [] => []
  | [k] => k
  | k :: keys' => k ++ 44 :: join_commas keys'
  end.

(** [trimEnd]: the second half of [trim]. *)
Definition trim_end (s : jsstring) : jsstring := rev (trim_start (rev s)).

(** The text holds no empty line: no two line feeds in a row. *)
Fixpoint no_blank_line (s : jsstring) : bool :=
  match s with
  | [] => true
  | c :: s' =>
      negb ((c =? 10) && match s' with d :: _ => d =? 10 | [] => false end)
      && no_blank_line s'
  end.

(** A part of a type the translation knows: [text] or [image]. *)
Definition known_part (part : jsval) : bool :=
  str_is "text" (prop_opt "type" part) ||
  str_is "image" (prop_opt "type" part).

(* ================================================================== *)
(** * Properties of JSON.parse *)
(* ================================================================== *)

(** The number of calls [parse] allows is never what makes it fail: a
    reader that returns a result has read at least one character, and it
    returns the same result with any number of calls from twice the length
    of its input on. *)

Local Abbreviation len := (@List.length N).

Lemma skip_ws_length (s : jsstring) : (len (JSON.skip_ws s) <= len s)%nat.
Proof.
  induction s as [|c s IH]; [reflexivity|].
  cbn [JSON.skip_ws]. destruct (JSON.is_ws c); cbn [List.length]; lia.
Qed.

Lemma next_length (c : N) (s r : jsstring) :
  JSON.next c s = Some r -> len s = S (len r).
Proof.
  destruct s as [|x s]; [discriminate|]. cbn [JSON.next].
  destruct (x =? c); [|discriminate]. now intros [= ->].
Qed.

Lemma starts_with_length (p s : jsstring) :
  starts_with p s = true -> (len p <= len s)%nat.
Proof.
  revert s; induction p as [|x p IH]; intros s H; cbn [List.length]; [lia|].
  destruct s as [|y s]; [discriminate|]. cbn [starts_with] in H.
  apply andb_prop in H. destruct H as [_ H]. apply IH in H.
  cbn [List.length]. lia.
Qed.

Lemma literal_length (word : string) (v x : jsval) (s r : jsstring) :
  JSON.literal word v s = Some (x, r) ->
  lit word <> [] -> (len r < len s)%nat.
Proof.
  unfold JSON.literal. intros H Hne.
  destruct (starts_with (lit word) s) eqn:Hs; [|discriminate].
  injection H as _ <-. apply starts_with_length in Hs.
  rewrite length_skipn.
  destruct (lit word); [contradiction|]. cbn [List.length] in *. lia.
Qed.

Lemma string_body_length (n : nat) :
  forall s t r,
    (len s <= n)%nat -> JSON.string_body s = Some (t, r) ->
    (len r < len s)%nat.
Proof.
  induction n as [|n IH]; intros s t r Hn H.
  - destruct s; [discriminate|]. cbn [List.length] in Hn. lia.
  - destruct s as [|c s]; [discriminate|].
    cbn [JSON.string_body] in H. cbn [List.length] in *.
    destruct (c =? 34).
    { injection H as _ <-. lia. }
    destruct (c =? 92).
    + destruct s as [|e s]; [discriminate|]. cbn [List.length] in *.
      destruct (e =? 117).
      * destruct s as [|a [|b [|c' [|d s]]]]; try discriminate.
        cbn [List.length] in *.
        destruct (JSON.hex4 a b c' d); [|discriminate]. cbn [bind] in H.
        destruct (JSON.string_body s) as [[t' r']|] eqn:E; [|discriminate].
        cbn [bind] in H. injection H as _ <-.
        apply IH in E; lia.
      * destruct (JSON.unescape e); [|discriminate]. cbn [bind] in H.
        destruct (JSON.string_body s) as [[t' r']|] eqn:E; [|discriminate].
        cbn [bind] in H. injection H as _ <-.
        apply IH in E; lia.
    + destruct (c <? 32); [discriminate|].
      destruct (JSON.string_body s) as [[t' r']|] eqn:E; [|discriminate].
      cbn [bind] in H. injection H as _ <-.
      apply IH in E; lia.
Qed.

Lemma digits_length (s : jsstring) :
  forall ds r,
    JSON.digits s = (ds, r) -> (List.length ds + len r = len s)%nat.
Proof.
  induction s as [|c s IH]; intros ds r H; cbn [JSON.digits] in H.
  - now injection H as <- <-.
  - destruct (JSON.is_digit c).
    + destruct (JSON.digits s) as [ds' r'].
      injection H as <- <-. specialize (IH _ _ eq_refl).
      cbn [List.length]. lia.
    + injection H as <- <-. reflexivity.
Qed.

Lemma digits1_length (s : jsstring) (ds : list N) (r : jsstring) :
  JSON.digits1 s = Some (ds, r) -> (len r < len s)%nat.
Proof.
  unfold JSON.digits1. destruct (JSON.digits s) as [ds' r'] eqn:E.
  apply digits_length in E.
  destruct ds' as [|d ds']; [discriminate|].
  intros [= <- <-]. cbn [List.length] in E. lia.
Qed.

Lemma number_length (s : jsstring) (n : jsnum) (r : jsstring) :
  JSON.number s = Some (n, r) -> (len r < len s)%nat.
Proof.
  unfold JSON.number.
  assert (exists sign s1,
            match JSON.next 45 s with
            | Some r => (true, r)
            | None => (false, s)
            end = (sign, s1) /\ (len s1 <= len s)%nat) as (sign & s1 & -> & H1).
  { destruct (JSON.next 45 s) as [r0|] eqn:E.
    - apply next_length in E. do 2 eexists; split; [reflexivity|lia].
    - do 2 eexists; split; [reflexivity|lia]. }
  destruct (JSON.digits1 s1) as [[int s2]|] eqn:E2; [|discriminate].
  apply digits1_length in E2. cbn [bind].
  destruct (starts_with [0] int && _); [discriminate|].
  assert (forall x,
            match JSON.next 46 s2 with
            | Some r => JSON.digits1 r
            | None => Some ([], s2)
            end = Some x -> (len (snd x) <= len s2)%nat) as H3.
  { intros [fr s3]. destruct (JSON.next 46 s2) as [r0|] eqn:E.
    - intros D. apply digits1_length in D. apply next_length in E.
      cbn [snd]. lia.
    - intros [= <- <-]. cbn [snd]. lia. }
  destruct (match JSON.next 46 s2 with
            | Some r => JSON.digits1 r
            | None => Some ([], s2)
            end) as [[frac s3]|]; [|discriminate].
  specialize (H3 _ eq_refl). cbn [snd bind] in *.
  match goal with
  | |- bind ?e _ = _ -> _ =>
      assert (forall x, e = Some x -> (len (snd x) <= len s3)%nat) as H4;
      [|destruct e as [[ex s4]|]; [|discriminate]]
  end.
  { intros [ex s4].
    destruct (match JSON.next 101 s3 with
              | Some r => Some r
              | None => JSON.next 69 s3
              end) as [r0|] eqn:E.
    - assert (len s3 = S (len r0)) as L.
      { destruct (JSON.next 101 s3) eqn:E'.
        - injection E as ->. now apply next_length in E'.
        - now apply next_length in E. }
      assert (exists esign r1,
                match JSON.next 43 r0 with
                | Some r' => (false, r')
                | None =>
                    match JSON.next 45 r0 with
                    | Some r' => (true, r')
                    | None => (false, r0)
                    end
                end = (esign, r1) /\ (len r1 <= len r0)%nat)
        as (esign & r1 & -> & L1).
      { destruct (JSON.next 43 r0) eqn:Ea.
        - apply next_length in Ea. do 2 eexists; split; [reflexivity|lia].
        - destruct (JSON.next 45 r0) eqn:Eb.
          + apply next_length in Eb. do 2 eexists; split; [reflexivity|lia].
          + do 2 eexists; split; [reflexivity|lia]. }
      destruct (JSON.digits1 r1) as [[es r2]|] eqn:D; [|discriminate].
      apply digits1_length in D. cbn [bind]. intros [= _ <-]. cbn [snd]. lia.
    - intros [= _ <-]. cbn [snd]. lia. }
  specialize (H4 _ eq_refl). cbn [snd bind] in *.
  intros [= _ <-]. lia.
Qed.

(** A reader that is called on shorter texts only can be exchanged for one
    that answers as it does on them. *)
Lemma value_body_carries
    (E E' : jsstring -> option (list jsval * jsstring))
    (M M' : jsstring -> option (list (jsstring * jsval) * jsstring))
    (s : jsstring) (r : jsval * jsstring) :
  (forall x y, (len x < len s)%nat -> E x = Some y ->
               E' x = Some y /\ (len (snd y) < len x)%nat) ->
  (forall x y, (len x < len s)%nat -> M x = Some y ->
               M' x = Some y /\ (len (snd y) < len x)%nat) ->
  JSON.value_body E M s = Some r ->
  JSON.value_body E' M' s = Some r /\ (len (snd r) < len s)%nat.
Proof.
  intros HE HM. destruct s as [|c s]; [discriminate|].
  cbn [JSON.value_body]. destruct r as [v r]. cbn [snd].
  destruct (c =? 110).
  { intros H. split; [exact H|]. apply literal_length in H; easy. }
  destruct (c =? 116).
  { intros H. split; [exact H|]. apply literal_length in H; easy. }
  destruct (c =? 102).
  { intros H. split; [exact H|]. apply literal_length in H; easy. }
  destruct (c =? 34).
  { intros H. split; [exact H|].
    destruct (JSON.string_body s) as [[t rest]|] eqn:E0; [|discriminate].
    injection H as _ <-.
    apply (string_body_length _ _ _ _ (le_n _)) in E0.
    cbn [List.length]. lia. }
  pose proof (skip_ws_length s) as Hws.
  destruct (c =? 91).
  { destruct (JSON.next 93 (JSON.skip_ws s)) as [rest|] eqn:E0.
    - intros H. split; [exact H|]. injection H as _ <-.
      apply next_length in E0. cbn [List.length]. lia.
    - destruct (E (JSON.skip_ws s)) as [[vs rest]|] eqn:E1; [|discriminate].
      apply HE in E1; [|cbn [List.length]; lia].
      destruct E1 as [-> L]. cbn [bind snd] in *.
      intros [= <- <-]. split; [reflexivity|]. cbn [List.length]. lia. }
  destruct (c =? 123).
  { destruct (JSON.next 125 (JSON.skip_ws s)) as [rest|] eqn:E0.
    - intros H. split; [exact H|]. injection H as _ <-.
      apply next_length in E0. cbn [List.length]. lia.
    - destruct (M (JSON.skip_ws s)) as [[ms rest]|] eqn:E1; [|discriminate].
      apply HM in E1; [|cbn [List.length]; lia].
      destruct E1 as [-> L]. cbn [bind snd] in *.
      intros [= <- <-]. split; [reflexivity|]. cbn [List.length]. lia. }
  intros H. split; [exact H|].
  destruct (JSON.number (c :: s)) as [[n rest]|] eqn:E0; [|discriminate].
  injection H as _ <-. now apply number_length in E0.
Qed.

Lemma elements_body_carries
    (V V' : jsstring -> option (jsval * jsstring))
    (E E' : jsstring -> option (list jsval * jsstring))
    (s : jsstring) (r : list jsval * jsstring) :
  (forall x y, (len x <= len s)%nat -> V x = Some y ->
               V' x = Some y /\ (len (snd y) < len x)%nat) ->
  (forall x y, (len x + 2 <= len s)%nat -> E x = Some y ->
               E' x = Some y /\ (len (snd y) < len x)%nat) ->
  JSON.elements_body V E s = Some r ->
  JSON.elements_body V' E' s = Some r /\ (len (snd r) < len s)%nat.
Proof.
  intros HV HE. unfold JSON.elements_body.
  pose proof (skip_ws_length s) as Hws.
  destruct (V (JSON.skip_ws s)) as [[v r1]|] eqn:E1; [|discriminate].
  apply HV in E1; [|lia]. destruct E1 as [-> L1]. cbn [bind snd] in *.
  pose proof (skip_ws_length r1) as Hws1.
  destruct (JSON.next 44 (JSON.skip_ws r1)) as [r2|] eqn:E2.
  - apply next_length in E2.
    destruct (E r2) as [[vs rest]|] eqn:E3; [|discriminate].
    apply HE in E3; [|lia]. destruct E3 as [-> L3]. cbn [bind snd] in *.
    intros [= <-]. split; [reflexivity|]. cbn [snd]. lia.
  - intros H. split; [exact H|].
    destruct (JSON.next 93 (JSON.skip_ws r1)) as [rest|] eqn:E3;
      [|discriminate].
    apply next_length in E3. injection H as <-. cbn [snd]. lia.
Qed.

Lemma members_body_carries
    (V V' : jsstring -> option (jsval * jsstring))
    (M M' : jsstring -> option (list (jsstring * jsval) * jsstring))
    (s : jsstring) (r : list (jsstring * jsval) * jsstring) :
  (forall x y, (len x <= len s)%nat -> V x = Some y ->
               V' x = Some y /\ (len (snd y) < len x)%nat) ->
  (forall x y, (len x + 2 <= len s)%nat -> M x = Some y ->
               M' x = Some y /\ (len (snd y) < len x)%nat) ->
  JSON.members_body V M s = Some r ->
  JSON.members_body V' M' s = Some r /\ (len (snd r) < len s)%nat.
Proof.
  intros HV HM. unfold JSON.members_body.
  pose proof (skip_ws_length s) as Hws.
  destruct (JSON.next 34 (JSON.skip_ws s)) as [r0|] eqn:E0; [|discriminate].
  apply next_length in E0. cbn [bind].
  destruct (JSON.string_body r0) as [[k r1]|] eqn:E1; [|discriminate].
  apply (string_body_length _ _ _ _ (le_n _)) in E1. cbn [bind].
  pose proof (skip_ws_length r1) as Hws1.
  destruct (JSON.next 58 (JSON.skip_ws r1)) as [r2|] eqn:E2; [|discriminate].
  apply next_length in E2. cbn [bind].
  pose proof (skip_ws_length r2) as Hws2.
  destruct (V (JSON.skip_ws r2)) as [[v r3]|] eqn:E3; [|discriminate].
  apply HV in E3; [|lia]. destruct E3 as [-> L3]. cbn [bind snd] in *.
  pose proof (skip_ws_length r3) as Hws3.
  destruct (JSON.next 44 (JSON.skip_ws r3)) as [r4|] eqn:E4.
  - apply next_length in E4.
    destruct (M r4) as [[ms rest]|] eqn:E5; [|discriminate].
    apply HM in E5; [|lia]. destruct E5 as [-> L5]. cbn [bind snd] in *.
    intros [= <-]. split; [reflexivity|]. cbn [snd]. lia.
  - intros H. split; [exact H|].
    destruct (JSON.next 125 (JSON.skip_ws r3)) as [rest|] eqn:E5;
      [|discriminate].
    apply next_length in E5. injection H as <-. cbn [snd]. lia.
Qed.

(** A result obtained with some number of calls is obtained with any
    number from twice the length of the text on, and the text is read. *)
Lemma readers_fuel (f : nat) :
  (forall s r g,
     JSON.value f s = Some r -> (2 * len s + 1 <= g)%nat ->
     JSON.value g s = Some r /\ (len (snd r) < len s)%nat) /\
  (forall s r g,
     JSON.elements f s = Some r -> (2 * len s + 2 <= g)%nat ->
     JSON.elements g s = Some r /\ (len (snd r) < len s)%nat) /\
  (forall s r g,
     JSON.members f s = Some r -> (2 * len s + 2 <= g)%nat ->
     JSON.members g s = Some r /\ (len (snd r) < len s)%nat).
Proof.
  induction f as [|f (IHv & IHe & IHm)];
    [repeat split; discriminate|].
  split; [|split]; intros s r g H Hg;
    (destruct g as [|g]; [lia|]); cbn [JSON.value JSON.elements JSON.members] in *.
  - eapply value_body_carries; [| |exact H].
    + intros x y Hx Hy. apply (IHe _ _ g Hy). lia.
    + intros x y Hx Hy. apply (IHm _ _ g Hy). lia.
  - eapply elements_body_carries; [| |exact H].
    + intros x y Hx Hy. apply (IHv _ _ g Hy). lia.
    + intros x y Hx Hy. apply (IHe _ _ g Hy). lia.
  - eapply members_body_carries; [| |exact H].
    + intros x y Hx Hy. apply (IHv _ _ g Hy). lia.
    + intros x y Hx Hy. apply (IHm _ _ g Hy). lia.
Qed.

(** From twice the length of the text on, the number of calls allowed
    does not change what [value] returns. *)
Lemma value_fuel (s : jsstring) (f g : nat) :
  (2 * len s + 1 <= f)%nat -> (2 * len s + 1 <= g)%nat ->
  JSON.value f s = JSON.value g s.
Proof.
  intros Hf Hg.
  destruct (JSON.value f s) as [r|] eqn:Ef.
  - symmetry. now apply (proj1 (readers_fuel f) s r g Ef).
  - destruct (JSON.value g s) as [r|] eqn:Eg; [|reflexivity].
    apply (proj1 (readers_fuel g) s r f) in Eg; [|exact Hf].
    destruct Eg as [Eg _]. congruence.
Qed.

(** [JSON.parse] with more calls allowed is [JSON.parse]. *)
Lemma parse_fuel (text : jsstring) (f : nat) :
  (2 * len text + 2 <= f)%nat ->
  JSON.value f (JSON.skip_ws text) =
  JSON.value (2 * len text + 2) (JSON.skip_ws text).
Proof.
  intros Hf. pose proof (skip_ws_length text).
  apply value_fuel; lia.
Qed.

(* ================================================================== *)
(** * Properties of the stream reframer *)
(* ================================================================== *)


(* ------------------------------------------------------------------ *)
(** ** Decoding and line splitting commute with chunking *)

Lemma decode_app (st : TextDecoder.state) (a b : list byte) :
  TextDecoder.decode st (a ++ b) =
  let '(st1, s1) := TextDecoder.decode st a in
  let '(st2, s2) := TextDecoder.decode st1 b in
  (st2, s1 ++ s2).
Proof.
  revert st; induction a as [|x a IH]; intros st; simpl.
  - destruct (TextDecoder.decode st b); reflexivity.
  - destruct (TextDecoder.step st x) as [st1 s1].
    rewrite IH.
    destruct (TextDecoder.decode st1 a) as [st2 s2].
    destruct (TextDecoder.decode st2 b) as [st3 s3].
    now rewrite app_assoc.
Qed.

Lemma split_lines_nonempty (s : jsstring) : split_lines s <> [].
Proof.
  unfold split_lines.
  destruct s as [|c s]; simpl; [discriminate|].
  destruct (c =? 10); [discriminate|].
  destruct (split_on 10 s); discriminate.
Qed.

Lemma split_lines_cons (c : N) (s : jsstring) :
  split_lines (c :: s) =
  if c =? 10 then [] :: split_lines s
  else match split_lines s with
       | l :: ls => (c :: l) :: ls
       | [] => [[c]]
       end.
Proof. reflexivity. Qed.

Lemma complete_cons (c : N) (s : jsstring) :
  complete (c :: s) =
  if c =? 10 then [] :: complete s
  else match complete s with [] => [] | h :: t => (c :: h) :: t end.
Proof.
  unfold complete; rewrite split_lines_cons.
  pose proof (split_lines_nonempty s) as Hne.
  destruct (c =? 10).
  - destruct (split_lines s) as [|l ls]; [contradiction|reflexivity].
  - destruct (split_lines s) as [|l ls]; [contradiction|].
    destruct ls; reflexivity.
Qed.

Lemma partial_cons (c : N) (s : jsstring) :
  partial (c :: s) =
  if c =? 10 then partial s
  else match complete s with [] => c :: partial s | _ :: _ => partial s end.
Proof.
  unfold complete, partial; rewrite split_lines_cons.
  pose proof (split_lines_nonempty s) as Hne.
  destruct (c =? 10).
  - destruct (split_lines s) as [|l ls]; [contradiction|reflexivity].
  - destruct (split_lines s) as [|l ls]; [contradiction|].
    destruct ls; reflexivity.
Qed.

(** The lines of [a ++ b]: the complete lines of [a], then the lines of
    what [a] left unfinished followed by [b]. *)
Lemma split_lines_app (a b : jsstring) :
  split_lines (a ++ b) = complete a ++ split_lines (partial a ++ b).
Proof.
  induction a as [|c a IH].
  - reflexivity.
  - rewrite complete_cons, partial_cons.
    change ((c :: a) ++ b) with (c :: a ++ b).
    rewrite split_lines_cons, IH.
    destruct (c =? 10) eqn:Hc.
    + reflexivity.
    + destruct (complete a) as [|h t].
      * cbn [app]. now rewrite split_lines_cons, Hc.
      * reflexivity.
Qed.

Lemma last_app_nonempty {A} (l l' : list A) (d : A) :
  l' <> [] -> last (l ++ l') d = last l' d.
Proof.
  intros Hne. induction l as [|x l IH]; [reflexivity|].
  simpl. rewrite IH.
  destruct (l ++ l') eqn:E; [|reflexivity].
  apply app_eq_nil in E. now destruct E.
Qed.

Lemma complete_app (a b : jsstring) :
  complete (a ++ b) = complete a ++ complete (partial a ++ b).
Proof.
  unfold complete at 1. rewrite split_lines_app.
  apply removelast_app, split_lines_nonempty.
Qed.

Lemma partial_app (a b : jsstring) :
  partial (a ++ b) = partial (partial a ++ b).
Proof.
  unfold partial at 1. rewrite split_lines_app.
  apply last_app_nonempty, split_lines_nonempty.
Qed.

Lemma process_lines_app (id : jsstring) (st : stream_state)
    (l1 l2 : list jsstring) :
  process_lines id st (l1 ++ l2) =
  let '(st1, out1) := process_lines id st l1 in
  let '(st2, out2) := process_lines id st1 l2 in
  (st2, out1 ++ out2).
Proof.
  revert st; induction l1 as [|l l1 IH]; intros st; simpl.
  - destruct (process_lines id st l2); reflexivity.
  - destruct (process_line id st l) as [st1 o1].
    rewrite IH.
    destruct (process_lines id st1 l1) as [st2 o2].
    destruct (process_lines id st2 l2) as [st3 o3].
    now rewrite app_assoc.
Qed.


(** The lines leave the decoder and the buffer alone: processing them
    commutes with replacing both. *)
Lemma process_line_set_io (id : jsstring) (d : TextDecoder.state) (b : jsstring)
    (st : stream_state) (l : jsstring) :
  process_line id (set_io d b st) l =
  (set_io d b (fst (process_line id st l)), snd (process_line id st l)).
Proof.
  unfold process_line.
  destruct (payload l) as [data|]; [|reflexivity].
  destruct (read_record data) as [[dl fr]|]; reflexivity.
Qed.

Lemma process_lines_set_io (id : jsstring) (d : TextDecoder.state) (b : jsstring)
    (st : stream_state) (ls : list jsstring) :
  process_lines id (set_io d b st) ls =
  (set_io d b (fst (process_lines id st ls)), snd (process_lines id st ls)).
Proof.
  revert st; induction ls as [|l ls IH]; intros st; simpl; [reflexivity|].
  rewrite process_line_set_io.
  destruct (process_line id st l) as [st1 o1]; simpl.
  rewrite IH.
  destruct (process_lines id st1 ls) as [st2 o2]; reflexivity.
Qed.

Lemma process_chunk_eq (id : jsstring) (st : stream_state) (value : list byte) :
  process_chunk id st value =
  let '(d, text) := TextDecoder.decode (decoder st) value in
  process_lines id (set_io d (partial (buffer st ++ text)) st)
    (complete (buffer st ++ text)).
Proof. reflexivity. Qed.

(** Reading [a ++ b] as one chunk is reading [a], then [b]. *)
Lemma process_chunk_app (id : jsstring) (st : stream_state)
    (a b : list byte) :
  process_chunk id st (a ++ b) =
  let '(st1, out1) := process_chunk id st a in
  let '(st2, out2) := process_chunk id st1 b in
  (st2, out1 ++ out2).
Proof.
  rewrite !process_chunk_eq, decode_app.
  destruct (TextDecoder.decode (decoder st) a) as [d1 t1].
  destruct (TextDecoder.decode d1 b) as [d2 t2] eqn:Hb.
  rewrite app_assoc, complete_app, partial_app, process_lines_app.
  set (p1 := partial (buffer st ++ t1)).
  set (l1 := complete (buffer st ++ t1)).
  rewrite (process_lines_set_io id d2), (process_lines_set_io id d1).
  destruct (process_lines id st l1) as [st1 o1]; simpl fst; simpl snd.
  rewrite process_chunk_eq. cbn [decoder buffer set_io]. rewrite Hb.
  reflexivity.
Qed.

Lemma process_chunks_concat (id : jsstring) (cs : list (list byte)) :
  forall (c : list byte) (st : stream_state),
    process_chunks id st (c :: cs) = process_chunk id st (c ++ List.concat cs).
Proof.
  induction cs as [|c' cs IH]; intros c st.
  - simpl. rewrite app_nil_r.
    destruct (process_chunk id st c) as [st1 o1]. now rewrite app_nil_r.
  - change (process_chunks id st (c :: c' :: cs))
      with (let '(st1, out1) := process_chunk id st c in
            let '(st2, out2) := process_chunks id st1 (c' :: cs) in
            (st2, out1 ++ out2)).
    change (List.concat (c' :: cs)) with (c' ++ List.concat cs).
    rewrite process_chunk_app.
    destruct (process_chunk id st c) as [st1 o1].
    now rewrite IH.
Qed.

(** C1. Feeding the reframer a backend byte stream split into chunks at
    arbitrary byte offsets (inside a multi-byte UTF-8 character, inside a
    JSON data line, anywhere) writes exactly the events, in the same order,
    that feeding the whole stream as one single chunk writes. *)
Theorem processStream_chunking (messageId : jsstring)
    (chunks : list (list byte)) :
  processStream messageId chunks =
  processStream messageId [List.concat chunks].
Proof.
  unfold processStream.
  destruct chunks as [|c cs]; [reflexivity|].
  rewrite !process_chunks_concat.
  simpl List.concat. now rewrite !app_nil_r.
Qed.

(** A chunk boundary inside the two-byte character U+00E9 and inside the
    JSON text: the same events as in one piece. *)
Example processStream_split_sample :
  let whole :=
    Sample.bytes "data: {'choices':[{'delta':{'content':'caf" ++
    [xc3; xa9] ++ Sample.line "'}}]}" in
  processStream Sample.id
    [Sample.bytes "data: {'choices':[{'delta':{'content':'caf" ++ [xc3];
     [xa9] ++ Sample.line "'}}]}"] =
  [message_start Sample.id;
   content_block_delta (JStr [99; 97; 102; 233])] /\
  processStream Sample.id [whole] =
  [message_start Sample.id;
   content_block_delta (JStr [99; 97; 102; 233])].
Proof. split; vm_compute; reflexivity. Qed.

(* ------------------------------------------------------------------ *)
(** ** The stream as a sequence of records *)


Lemma process_lines_events (id : jsstring) (lines : list jsstring) :
  forall st : stream_state,
    snd (process_lines id st lines) = lines_events id (sentHeader st) lines.
Proof.
  induction lines as [|l ls IH]; intros st; [reflexivity|].
  cbn [process_lines lines_events].
  unfold process_line, line_record, bind.
  destruct (payload l) as [data|].
  - destruct (read_record data) as [[d f]|].
    + specialize (IH {| decoder := decoder st; buffer := buffer st;
                        sentHeader := true;
                        contentAccumulator := contentAccumulator st ++ [d] |}).
      destruct (process_lines id _ ls) as [st2 o2]. simpl in *. now rewrite IH.
    + specialize (IH st).
      destruct (process_lines id st ls) as [st2 o2]. simpl in *. exact IH.
  - specialize (IH st).
    destruct (process_lines id st ls) as [st2 o2]. simpl in *. exact IH.
Qed.

(** What [processStream] writes is what the complete lines of the decoded
    stream contribute, one after the other. *)
Lemma processStream_lines (id : jsstring) (chunks : list (list byte)) :
  processStream id chunks = lines_events id false (stream_lines chunks).
Proof.
  unfold processStream, stream_lines, stream_text.
  destruct chunks as [|c cs]; [reflexivity|].
  rewrite process_chunks_concat.
  change (c ++ List.concat cs) with (List.concat (c :: cs)).
  generalize (List.concat (c :: cs)) as bytes; intros bytes.
  rewrite process_chunk_eq.
  cbn [decoder buffer stream_init app].
  destruct (TextDecoder.decode TextDecoder.init bytes) as [d text].
  rewrite process_lines_set_io.
  cbn [snd fst].
  now rewrite process_lines_events.
Qed.

(* ------------------------------------------------------------------ *)
(** ** Header, deltas and closing events *)

Lemma lines_events_app (id : jsstring) (l1 l2 : list jsstring) :
  forall sent : bool,
    lines_events id sent (l1 ++ l2) =
    lines_events id sent l1 ++
    lines_events id (sent || existsb (fun l => match line_record l with
                                               | Some _ => true
                                               | None => false
                                               end) l1) l2.
Proof.
  induction l1 as [|l l1 IH]; intros sent; cbn [app lines_events existsb].
  - now rewrite orb_false_r.
  - destruct (line_record l) as [[d f]|].
    + rewrite IH, <- app_assoc. cbn [orb]. now rewrite orb_true_r.
    + rewrite IH. reflexivity.
Qed.

(** Lines that are all skipped write nothing. *)
Lemma lines_events_skipped (id : jsstring) (sent : bool) (ls : list jsstring) :
  (forall l, In l ls -> line_record l = None) ->
  lines_events id sent ls = [] /\
  existsb (fun l => match line_record l with
                    | Some _ => true
                    | None => false
                    end) ls = false.
Proof.
  induction ls as [|l ls IH]; intros H; [now split|].
  cbn [lines_events existsb].
  rewrite (H l (or_introl eq_refl)).
  apply IH. intros l' Hl'. apply H. now right.
Qed.

(** The events of a record: the header, if it is still to be sent, then
    the rest, which holds no header. *)
Lemma record_events_unsent (id : jsstring) (d f : jsval) :
  record_events id false d f = message_start id :: record_events id true d f.
Proof. reflexivity. Qed.

Lemma record_events_sent (id : jsstring) (d f : jsval) (e : event) :
  In e (record_events id true d f) ->
  type_of e = ContentBlockDelta \/ type_of e = MessageDelta \/
  type_of e = MessageStop.
Proof.
  unfold record_events. cbn [app]. intros He.
  apply in_app_or in He. destruct He as [He|He].
  - destruct (truthy d); [|contradiction].
    destruct He as [<-|[]]. now left.
  - destruct (truthy f); [|contradiction].
    destruct He as [<-|[<-|[]]]; auto.
Qed.

(** Once the header is sent, no line writes it again. *)
Lemma lines_events_sent (id : jsstring) (ls : list jsstring) :
  forall e, In e (lines_events id true ls) -> type_of e <> MessageStart.
Proof.
  induction ls as [|l ls IH]; intros e He; [contradiction|].
  cbn [lines_events] in He.
  destruct (line_record l) as [[d f]|]; [|now apply IH].
  apply in_app_or in He. destruct He as [He|He]; [|now apply IH].
  apply record_events_sent in He.
  destruct He as [H|[H|H]]; rewrite H; discriminate.
Qed.

(** What the lines write before the header was sent: nothing at all, or
    the header first and no other header after it. *)
Lemma lines_events_unsent (id : jsstring) (ls : list jsstring) :
  lines_events id false ls = [] \/
  exists rest,
    lines_events id false ls = message_start id :: rest /\
    forall e, In e rest -> type_of e <> MessageStart.
Proof.
  induction ls as [|l ls IH]; [now left|].
  cbn [lines_events].
  destruct (line_record l) as [[d f]|]; [|exact IH].
  right. rewrite record_events_unsent. cbn [app].
  eexists; split; [reflexivity|].
  intros e He.
  apply in_app_or in He. destruct He as [He|He];
    [|now apply (lines_events_sent id ls)].
  apply record_events_sent in He.
  destruct He as [H|[H|H]]; rewrite H; discriminate.
Qed.

(** C3. Over the whole stream the reframer writes [message_start] at most
    once, and whenever it writes a [content_block_delta], a
    [message_start] has been written before it. *)
Theorem message_start_once_before_deltas (messageId : jsstring)
    (chunks : list (list byte)) :
  (List.length (filter (has_type MessageStart)
                  (processStream messageId chunks)) <= 1)%nat /\
  forall before e after,
    processStream messageId chunks = before ++ e :: after ->
    type_of e = ContentBlockDelta ->
    exists m, In m before /\ type_of m = MessageStart.
Proof.
  rewrite processStream_lines.
  destruct (lines_events_unsent messageId (stream_lines chunks))
    as [E|[rest [E Hrest]]]; rewrite E.
  - split; [simpl; lia|].
    intros before e after H. now destruct before.
  - split.
    + cbn [filter has_type type_of event_type_eqb List.length].
      assert (filter (has_type MessageStart) rest = []) as ->; [|simpl; lia].
      clear E. induction rest as [|x rest IH]; [reflexivity|].
      cbn [filter]. unfold has_type at 1.
      destruct (type_of x) eqn:Hx; cbn [event_type_eqb];
        try (apply IH; intros e He; apply Hrest; now right).
      exfalso. apply (Hrest x); [now left|exact Hx].
    + intros before e after H He.
      destruct before as [|m before].
      * cbn [app] in H. injection H as <- _. discriminate.
      * cbn [app] in H. injection H as <- _.
        exists (message_start messageId). split; [now left|reflexivity].
Qed.

(** The events of a stream whose lines are cut at a record that was read:
    what the lines before it wrote, what the record writes, what the lines
    after it write with the header sent. *)
Lemma lines_events_at (id : jsstring) (sent : bool)
    (before after : list jsstring) (line : jsstring) (d f : jsval) :
  line_record line = Some (d, f) ->
  lines_events id sent (before ++ line :: after) =
  lines_events id sent before ++
  record_events id (sent || existsb (fun l => match line_record l with
                                              | Some _ => true
                                              | None => false
                                              end) before) d f ++
  lines_events id true after.
Proof.
  intros Hline. rewrite lines_events_app. cbn [lines_events].
  now rewrite Hline.
Qed.

(** After the header, a line that yields neither text nor a finish signal
    writes nothing. *)
Lemma lines_events_silent (id : jsstring) (ls : list jsstring) :
  (forall l, In l ls -> yields l = false) -> lines_events id true ls = [].
Proof.
  induction ls as [|l ls IH]; intros H; [reflexivity|].
  cbn [lines_events].
  pose proof (H l (or_introl eq_refl)) as Hl. unfold yields in Hl.
  destruct (line_record l) as [[d f]|].
  - apply orb_false_elim in Hl. destruct Hl as [Hd Hf].
    unfold record_events. rewrite Hd, Hf. cbn [app].
    apply IH. intros l' Hl'. apply H. now right.
  - apply IH. intros l' Hl'. apply H. now right.
Qed.

(** C2, on the code.  The reframer keeps no record of having finished:
    a record read after the one that carried the finish signal still
    writes its events after [message_stop]. *)
Lemma events_after_message_stop :
  processStream Sample.id
    [Sample.line "data: {'choices':[{'delta':{},'finish_reason':'stop'}]}" ++
     Sample.line "data: {'choices':[{'delta':{'content':'late'}}]}"] =
  [message_start Sample.id;
   message_delta (str "end_turn");
   message_stop;
   content_block_delta (str "late")].
Proof. vm_compute. reflexivity. Qed.

(** C2, as the code has it.  A record that is read (its payload parses,
    [json.choices[0]] can be evaluated and its delta can be appended to
    the accumulated text) and carries a finish signal writes, after its
    header and text if any, exactly one [message_delta] with the mapped
    stop reason and then exactly one [message_stop]; the events of the
    records before it come first, those of the records after it follow,
    and nothing follows [message_stop] when no later record yields text or
    a finish signal. *)
Theorem finish_record_closes (messageId : jsstring)
    (chunks : list (list byte)) (before after : list jsstring)
    (line : jsstring) (delta finish_reason : jsval) :
  stream_lines chunks = before ++ line :: after ->
  line_record line = Some (delta, finish_reason) ->
  truthy finish_reason = true ->
  exists pre,
    processStream messageId chunks =
      lines_events messageId false before ++ pre ++
      [message_delta (mapStopReason finish_reason); message_stop] ++
      lines_events messageId true after /\
    (forall e, In e pre ->
       type_of e = MessageStart \/ type_of e = ContentBlockDelta) /\
    ((forall l, In l after -> yields l = false) ->
     lines_events messageId true after = []).
Proof.
  intros Hcut Hline Hfin.
  rewrite processStream_lines, Hcut, (lines_events_at _ _ _ _ _ _ _ Hline).
  unfold record_events. rewrite Hfin.
  set (hdr := if (false || _)%bool then [] else [message_start messageId]).
  set (txt := if truthy delta then [content_block_delta delta] else []).
  exists (hdr ++ txt). split; [|split].
  - now rewrite <- !app_assoc.
  - intros e He. apply in_app_or in He. destruct He as [He|He].
    + subst hdr. destruct (false || _)%bool; [contradiction|].
      destruct He as [<-|[]]. now left.
    + subst txt. destruct (truthy delta); [|contradiction].
      destruct He as [<-|[]]. now right.
  - apply lines_events_silent.
Qed.

Lemma finish_record_closes_witness :
  exists pre,
    processStream Sample.id
      [Sample.line "data: {'choices':[{'delta':{'content':'Hi'}}]}" ++
       Sample.line "data: {'choices':[{'delta':{},'finish_reason':'length'}]}" ++
       Sample.line "data: [DONE]"] =
      lines_events Sample.id false
        [Sample.text "data: {'choices':[{'delta':{'content':'Hi'}}]}"] ++
      pre ++
      [message_delta (mapStopReason (str "length")); message_stop] ++
      lines_events Sample.id true [Sample.text "data: [DONE]"] /\
    (forall e, In e pre ->
       type_of e = MessageStart \/ type_of e = ContentBlockDelta) /\
    ((forall l, In l [Sample.text "data: [DONE]"] -> yields l = false) ->
     lines_events Sample.id true [Sample.text "data: [DONE]"] = []).
Proof.
  apply (finish_record_closes Sample.id _
           [Sample.text "data: {'choices':[{'delta':{'content':'Hi'}}]}"]
           [Sample.text "data: [DONE]"]
           (Sample.text
              "data: {'choices':[{'delta':{},'finish_reason':'length'}]}")
           (str "") (str "length")).
  - vm_compute. reflexivity.
  - vm_compute. reflexivity.
  - reflexivity.
Defined.

(** C4, on the code.  The only record of this stream yields neither text
    nor a finish signal, and the header is written for it. *)
Lemma header_for_silent_record :
  let line := "data: {'choices':[{'delta':{'role':'assistant'}}]}" in
  stream_lines [Sample.line line] = [Sample.text line] /\
  yields (Sample.text line) = false /\
  processStream Sample.id [Sample.line line] = [message_start Sample.id].
Proof. repeat split; vm_compute; reflexivity. Qed.

(** C4, as the code has it.  The header is written upon the first record
    that is read (its payload parses, [json.choices[0]] can be evaluated
    and its delta can be appended to the accumulated text), whether or not
    that record yields text or a finish signal: it is the first event, the
    events of that record and of the later lines follow it, and none of
    them is a header.  A line that is skipped writes nothing. *)
Theorem message_start_at_first_record (messageId : jsstring)
    (chunks : list (list byte)) (before after : list jsstring)
    (line : jsstring) (delta finish_reason : jsval) :
  stream_lines chunks = before ++ line :: after ->
  (forall l, In l before -> line_record l = None) ->
  line_record line = Some (delta, finish_reason) ->
  processStream messageId chunks =
    message_start messageId ::
    record_events messageId true delta finish_reason ++
    lines_events messageId true after /\
  forall e,
    In e (record_events messageId true delta finish_reason ++
          lines_events messageId true after) ->
    type_of e <> MessageStart.
Proof.
  intros Hcut Hbefore Hline.
  rewrite processStream_lines, Hcut, (lines_events_at _ _ _ _ _ _ _ Hline).
  destruct (lines_events_skipped messageId false before Hbefore) as [-> ->].
  cbn [orb app]. rewrite record_events_unsent. split; [reflexivity|].
  intros e He. apply in_app_or in He. destruct He as [He|He].
  - apply record_events_sent in He.
    destruct He as [H|[H|H]]; rewrite H; discriminate.
  - now apply (lines_events_sent messageId after).
Qed.

Lemma message_start_at_first_record_witness :
  processStream Sample.id
    [Sample.line ": keep-alive" ++
     Sample.line "data: {'choices':[{'delta':{'role':'assistant'}}]}" ++
     Sample.line "data: {'choices':[{'delta':{'content':'Hi'}}]}"] =
    message_start Sample.id ::
    record_events Sample.id true (str "") JUndefined ++
    lines_events Sample.id true
      [Sample.text "data: {'choices':[{'delta':{'content':'Hi'}}]}"] /\
  forall e,
    In e (record_events Sample.id true (str "") JUndefined ++
          lines_events Sample.id true
            [Sample.text "data: {'choices':[{'delta':{'content':'Hi'}}]}"]) ->
    type_of e <> MessageStart.
Proof.
  apply (message_start_at_first_record Sample.id _
           [Sample.text ": keep-alive"]
           [Sample.text "data: {'choices':[{'delta':{'content':'Hi'}}]}"]
           (Sample.text "data: {'choices':[{'delta':{'role':'assistant'}}]}")).
  - vm_compute. reflexivity.
  - intros l [<-|[]]. vm_compute. reflexivity.
  - vm_compute. reflexivity.
Defined.

(** A data line whose payload does not parse is skipped. *)
Lemma malformed_line_record (line : jsstring) :
  starts_with (lit "data:") line = true ->
  JSON.parse (trim (skipn 5 line)) = None ->
  line_record line = None.
Proof.
  intros Hdata Hparse. unfold line_record, payload, bind.
  rewrite Hdata. cbn [negb].
  destruct (jsstring_eqb _ _); [reflexivity|].
  unfold read_record, bind. now rewrite Hparse.
Qed.

(** C5. A data line whose payload fails to parse as JSON is skipped and
    the stream goes on: the events written for a stream that contains it
    are exactly the events written for the same stream without it, so the
    records after it lose no delta and gain none. *)
Theorem malformed_record_skipped (messageId : jsstring)
    (chunks chunks' : list (list byte)) (before after : list jsstring)
    (bad : jsstring) :
  stream_lines chunks = before ++ bad :: after ->
  stream_lines chunks' = before ++ after ->
  starts_with (lit "data:") bad = true ->
  JSON.parse (trim (skipn 5 bad)) = None ->
  processStream messageId chunks = processStream messageId chunks'.
Proof.
  intros Hcut Hcut' Hdata Hparse.
  rewrite !processStream_lines, Hcut, Hcut', !lines_events_app.
  cbn [lines_events].
  now rewrite (malformed_line_record bad Hdata Hparse).
Qed.

Lemma malformed_record_skipped_witness :
  processStream Sample.id
    [Sample.line "data: {'choices':[{'delta':{'content':'a'}}]}" ++
     Sample.line "data: {'choices':[{'delta':" ++
     Sample.line "data: {'choices':[{'delta':{'content':'b'}}]}"] =
  processStream Sample.id
    [Sample.line "data: {'choices':[{'delta':{'content':'a'}}]}" ++
     Sample.line "data: {'choices':[{'delta':{'content':'b'}}]}"].
Proof.
  apply (malformed_record_skipped Sample.id _ _
           [Sample.text "data: {'choices':[{'delta':{'content':'a'}}]}"]
           [Sample.text "data: {'choices':[{'delta':{'content':'b'}}]}"]
           (Sample.text "data: {'choices':[{'delta':")).
  - vm_compute. reflexivity.
  - vm_compute. reflexivity.
  - vm_compute. reflexivity.
  - vm_compute. reflexivity.
Defined.

(* ================================================================== *)
(** * Properties of the request translator *)
(* ================================================================== *)

(** Every property can be read once one could be. *)
Lemma prop_defined (a b : string) (v x : jsval) :
  prop a v = Some x -> exists y, prop b v = Some y.
Proof.
  destruct v; cbn [prop]; intros H; try discriminate; eauto.
Qed.

(* ------------------------------------------------------------------ *)
(** ** The prompt form *)


Section RequestProperties.

Variable number_to_string : jsnum -> jsstring.

Local Abbreviation convert := (convertAnthropicToOpenAI number_to_string).
Local Abbreviation message_of := (convert_message number_to_string).
Local Abbreviation messages_of := (convert_messages number_to_string).

(** The request object once its messages are built. *)
Lemma convert_built (req : jsval) (env : environment)
    (ms : list OpenAI.message) (x : jsval) :
  prop "messages" req = Some x ->
  build_messages number_to_string req = Some ms ->
  exists out, convert req env = Some out /\ OpenAI.messages out = ms.
Proof.
  intros Hreq Hms. unfold convert, convertAnthropicToOpenAI. rewrite Hms.
  destruct (prop_defined "messages" "stream" _ _ Hreq) as [a ->].
  destruct (prop_defined "messages" "temperature" _ _ Hreq) as [b ->].
  destruct (prop_defined "messages" "max_tokens" _ _ Hreq) as [c ->].
  destruct (prop_defined "messages" "top_p" _ _ Hreq) as [d ->].
  cbn [bind]. eexists; split; reflexivity.
Qed.

Lemma convert_messages_of (req : jsval) (env : environment)
    (out : OpenAI.request) :
  convert req env = Some out ->
  build_messages number_to_string req = Some (OpenAI.messages out).
Proof.
  unfold convert, convertAnthropicToOpenAI, bind.
  destruct (build_messages number_to_string req) as [ms|]; [|discriminate].
  destruct (prop "stream" req); [|discriminate].
  destruct (prop "temperature" req); [|discriminate].
  destruct (prop "max_tokens" req); [|discriminate].
  destruct (prop "top_p" req); [|discriminate].
  intros [= <-]. reflexivity.
Qed.


(* ------------------------------------------------------------------ *)
(** ** The messages form *)

Lemma convert_messages_app (a b : list jsval) :
  messages_of (a ++ b) =
  (x <- messages_of a ;; y <- messages_of b ;; Some (x ++ y)).
Proof.
  induction a as [|m a IH]; cbn [app convert_messages bind].
  - now destruct (messages_of b).
  - destruct (message_of m) as [o|]; [|reflexivity]. cbn [bind].
    rewrite IH.
    destruct (messages_of a) as [x|]; [|reflexivity]. cbn [bind].
    destruct (messages_of b) as [y|]; [|reflexivity]. cbn [bind].
    now destruct o.
Qed.

(** The messages of a request in messages form whose [messages] is an
    array: the system message, if [system] is truthy, then the
    translations. *)
Lemma build_messages_array (req : jsval) (l : list jsval)
    (ms : list OpenAI.message) :
  prop "messages" req = Some (JArr l) ->
  build_messages number_to_string req = Some ms ->
  exists kept system,
    messages_of l = Some kept /\
    prop "system" req = Some system /\
    ms = (if truthy system
          then [{| OpenAI.role := str "system"; OpenAI.content := system |}]
          else []) ++ kept.
Proof.
  intros Hreq. unfold build_messages. rewrite Hreq.
  cbn [bind truthy iterate].
  destruct (messages_of l) as [kept|]; [|discriminate]. cbn [bind].
  destruct (prop "system" req) as [system|]; [|discriminate]. cbn [bind].
  intros [= <-]. exists kept, system. repeat split.
  now destruct (truthy system).
Qed.

Lemma every_text_parts (parts : list jsval) (texts : list jsstring) :
  Forall2 text_part parts texts -> every_text parts = Some true.
Proof.
  induction 1 as [|part t parts texts [Ht _] _ IH]; [reflexivity|].
  cbn [every_text]. rewrite Ht. cbn [bind]. exact IH.
Qed.

Lemma map_text_parts (parts : list jsval) (texts : list jsstring) :
  Forall2 text_part parts texts ->
  map_throwing (prop "text") parts = Some (map JStr texts).
Proof.
  induction 1 as [|part t parts texts [_ Ht] _ IH]; [reflexivity|].
  cbn [map_throwing map]. rewrite Ht, IH. reflexivity.
Qed.

Lemma join_empty_strings (texts : list jsstring) :
  join_empty number_to_string (map JStr texts) = Some (List.concat texts).
Proof.
  induction texts as [|t texts IH]; [reflexivity|].
  cbn [map join_empty to_string List.concat bind]. now rewrite IH.
Qed.

Lemma num_of_nat_zero (n : nat) :
  num_is_zero (num_of_nat n) = Nat.eqb n 0.
Proof.
  unfold num_is_zero, num_of_nat; cbn [mant exp10].
  rewrite Z.ltb_irrefl, andb_false_l, orb_false_r.
  destruct n; [reflexivity|]. cbn [Nat.eqb].
  apply N.eqb_neq. lia.
Qed.

Lemma str_is_str (s : string) : str_is s (str s) = true.
Proof.
  unfold str_is, str. induction (lit s) as [|c l IH]; [reflexivity|].
  cbn [jsstring_eqb]. now rewrite N.eqb_refl, IH.
Qed.

(** The translation of a message whose content is text parts only. *)
Lemma convert_message_text_parts (m role : jsval) (parts : list jsval)
    (texts : list jsstring) :
  prop "role" m = Some role ->
  prop "content" m = Some (JArr parts) ->
  Forall2 text_part parts texts ->
  str_is "assistant" role && is_nil parts = false ->
  message_of m =
  Some (Some {| OpenAI.role := role;
                OpenAI.content := JStr (List.concat texts) |}).
Proof.
  intros Hrole Hcontent Hparts Hkept.
  unfold convert_message, empty_assistant.
  rewrite Hrole, Hcontent. cbn [bind].
  assert ((if str_is "assistant" role
           then len <- length_of (JArr parts) ;; Some (is_number_zero len)
           else Some false) = Some false) as ->.
  { destruct (str_is "assistant" role); [|reflexivity].
    cbn [length_of bind is_number_zero]. rewrite num_of_nat_zero.
    cbn [andb] in Hkept. f_equal.
    destruct Hparts; [discriminate|reflexivity]. }
  cbn [bind convert_content].
  rewrite (every_text_parts _ _ Hparts). cbn [bind].
  rewrite (map_text_parts _ _ Hparts). cbn [bind].
  now rewrite join_empty_strings.
Qed.

(** C7. In messages form, a message whose content is a sequence of text
    parts only is translated to a message whose content is one string:
    the texts of the parts, in order, with nothing between them.  (An
    assistant message with no part at all is not translated; it is
    skipped.) *)
Theorem text_parts_concatenated (req : jsval) (env : environment)
    (out : OpenAI.request) (before after : list jsval)
    (m role : jsval) (parts : list jsval) (texts : list jsstring) :
  prop "messages" req = Some (JArr (before ++ m :: after)) ->
  prop "role" m = Some role ->
  prop "content" m = Some (JArr parts) ->
  Forall2 text_part parts texts ->
  str_is "assistant" role && is_nil parts = false ->
  convert req env = Some out ->
  exists o1 o2,
    OpenAI.messages out =
      o1 ++ {| OpenAI.role := role;
               OpenAI.content := JStr (List.concat texts) |} :: o2 /\
    messages_of after = Some o2.
Proof.
  intros Hreq Hrole Hcontent Hparts Hkept Hout.
  apply convert_messages_of in Hout.
  destruct (build_messages_array _ _ _ Hreq Hout)
    as [kept [system [Hkeep [_ Hms]]]].
  rewrite convert_messages_app in Hkeep.
  destruct (messages_of before) as [b|]; [|discriminate].
  cbn [bind convert_messages] in Hkeep.
  rewrite (convert_message_text_parts _ _ _ _ Hrole Hcontent Hparts Hkept)
    in Hkeep.
  cbn [bind] in Hkeep.
  destruct (messages_of after) as [a|]; [|discriminate].
  cbn [bind] in Hkeep. injection Hkeep as <-.
  eexists (_ ++ b), a. split; [|reflexivity].
  rewrite Hms. now rewrite app_assoc.
Qed.

(** C8, as the code has it.  In messages form, when the [system] field is
    truthy (a text that is not empty), the first message of the backend
    request has role [system] and the system text as its content, and the
    translations of the messages follow it in their order. *)
Theorem system_message_first (req : jsval) (env : environment)
    (out : OpenAI.request) (msgs system : jsval) :
  prop "messages" req = Some msgs ->
  truthy msgs = true ->
  prop "system" req = Some system ->
  truthy system = true ->
  convert req env = Some out ->
  exists l rest,
    iterate msgs = Some l /\
    messages_of l = Some rest /\
    OpenAI.messages out =
      {| OpenAI.role := str "system"; OpenAI.content := system |} :: rest.
Proof.
  intros Hmsgs Htruthy Hsys Hsystem Hout.
  apply convert_messages_of in Hout. revert Hout.
  unfold build_messages. rewrite Hmsgs. cbn [bind]. rewrite Htruthy.
  destruct (iterate msgs) as [l|]; [|discriminate]. cbn [bind].
  destruct (messages_of l) as [rest|] eqn:Hrest; [|discriminate]. cbn [bind].
  rewrite Hsys. cbn [bind]. rewrite Hsystem. intros [= <-].
  exists l, rest. now repeat split.
Qed.

(** What the loop keeps of an array of messages: the translations of the
    messages that are not skipped, in order. *)
Lemma convert_messages_kept (l : list jsval) :
  forall kept,
    messages_of l = Some kept ->
    Forall2 (fun m o => message_of m = Some (Some o))
            (filter (fun m => negb (skipped m)) l) kept.
Proof.
  induction l as [|m l IH]; intros kept H.
  - injection H as <-. constructor.
  - cbn [convert_messages] in H.
    destruct (message_of m) as [o|] eqn:Hm; [|discriminate].
    cbn [bind] in H.
    destruct (messages_of l) as [ms|]; [|discriminate].
    cbn [bind] in H. injection H as <-.
    cbn [filter]. unfold skipped at 1.
    pose proof Hm as Hm'. unfold convert_message in Hm'.
    destruct (empty_assistant m) as [[|]|]; cbn [bind] in Hm';
      try discriminate.
    + injection Hm' as <-. cbn [negb]. now apply IH.
    + cbn [negb]. destruct o as [o|].
      * constructor; [exact Hm|now apply IH].
      * exfalso. revert Hm'.
        destruct (prop "role" m); [|discriminate]. cbn [bind].
        destruct (prop "content" m) as [c|]; [|discriminate]. cbn [bind].
        destruct (convert_content number_to_string c); discriminate.
Qed.

(** C9, as the code has it.  In messages form, an assistant message whose
    content has length zero on input (the empty string, an empty
    sequence) is skipped: after the system message, if there is one, the
    backend request holds exactly the translations of the other messages,
    in order. *)
Theorem empty_assistant_skipped (req : jsval) (env : environment)
    (out : OpenAI.request) (l : list jsval) :
  prop "messages" req = Some (JArr l) ->
  convert req env = Some out ->
  exists system kept,
    prop "system" req = Some system /\
    OpenAI.messages out =
      (if truthy system
       then [{| OpenAI.role := str "system"; OpenAI.content := system |}]
       else []) ++ kept /\
    Forall2 (fun m o => message_of m = Some (Some o))
            (filter (fun m => negb (skipped m)) l) kept.
Proof.
  intros Hreq Hout. apply convert_messages_of in Hout.
  destruct (build_messages_array _ _ _ Hreq Hout)
    as [kept [system [Hkeep [Hsys Hms]]]].
  exists system, kept. repeat split; trivial.
  now apply convert_messages_kept.
Qed.

End RequestProperties.

(* ------------------------------------------------------------------ *)
(** ** A missing content *)

Section HandlerProperties.

Variable number_to_string : jsnum -> jsstring.
Variable backend : OpenAI.request -> option backend_response.
Variable messageId : jsstring.

Local Abbreviation message_of := (convert_message number_to_string).
Local Abbreviation messages_of := (convert_messages number_to_string).

(** One message that throws and the loop throws. *)
Lemma convert_messages_throws (m : jsval) (l : list jsval) :
  In m l -> message_of m = None -> messages_of l = None.
Proof.
  intros Hin Hm. induction l as [|x l IH]; [contradiction|].
  cbn [convert_messages]. destruct Hin as [->|Hin].
  - now rewrite Hm.
  - rewrite (IH Hin). now destruct (message_of x).
Qed.

(** C10. In messages form, a message with role [assistant] whose
    [content] is [null] or absent makes the translation throw, where it
    reads the length of that content, and no backend request is built; the
    handler answers 500 with an error of type [proxy_error].  A message
    with another role and such a content does not throw: it is translated
    with an undefined content. *)
Theorem missing_assistant_content_throws (request : http_request)
    (env : environment) (req : jsval) (l : list jsval)
    (m content : jsval) :
  reject request env = None ->
  JSON.parse (body request) = Some req ->
  prop "messages" req = Some (JArr l) ->
  In m l ->
  prop "role" m = Some (str "assistant") ->
  prop "content" m = Some content ->
  nullish content = true ->
  convertAnthropicToOpenAI number_to_string req env = None /\
  fetch number_to_string backend messageId request env =
    Error 500 "proxy_error" ProcessingError /\
  forall m' role' content',
    prop "role" m' = Some role' ->
    str_is "assistant" role' = false ->
    prop "content" m' = Some content' ->
    nullish content' = true ->
    message_of m' =
    Some (Some {| OpenAI.role := role'; OpenAI.content := JUndefined |}).
Proof.
  intros Hpass Hbody Hreq Hin Hrole Hcontent Hnull.
  assert (message_of m = None) as Hm.
  { unfold convert_message, empty_assistant.
    rewrite Hrole. cbn [bind]. rewrite str_is_str, Hcontent. cbn [bind].
    destruct content; try discriminate; reflexivity. }
  assert (convertAnthropicToOpenAI number_to_string req env = None) as Hthrow.
  { unfold convertAnthropicToOpenAI, build_messages.
    rewrite Hreq. cbn [bind truthy iterate].
    now rewrite (convert_messages_throws m l Hin Hm). }
  split; [exact Hthrow|]. split.
  - unfold fetch, forward. rewrite Hpass, Hbody. cbn [bind].
    destruct (prop_defined "messages" "stream" _ _ Hreq) as [s ->].
    cbn [bind]. now rewrite Hthrow.
  - intros m' role' content' Hrole' Hother Hcontent' Hnull'.
    unfold convert_message, empty_assistant.
    rewrite Hrole'. cbn [bind]. rewrite Hother. cbn [bind].
    rewrite Hcontent'. cbn [bind].
    destruct content'; try discriminate; reflexivity.
Qed.

End HandlerProperties.

(* ------------------------------------------------------------------ *)
(** ** The translator on the sample requests *)

(** A segment that holds a single space is empty once trimmed: the other
    segment of this prompt is its only turn. *)
Example white_space_segment_sample :
  filter (fun s => negb (is_nil s))
         (split_turns Sample.blank_turn_prompt) = [lit " "; lit "Hi"] /\
  convertAnthropicToOpenAI Sample.no_numbers Sample.blank_turn_request
    Sample.env =
  Some (Sample.backend_request [Sample.translated "user" (str "Hi")]).
Proof. split; vm_compute; reflexivity. Qed.


(** The scenario of the specification: two turns, [user] then
    [assistant]. *)
Example prompt_form_sample :
  convertAnthropicToOpenAI Sample.no_numbers Sample.prompt_request Sample.env =
  Some (Sample.backend_request [Sample.translated "user" (str "Hi");
                                Sample.translated "assistant" (str "Hello")]).
Proof. vm_compute. reflexivity. Qed.

Lemma text_parts_concatenated_witness :
  exists o1 o2,
    OpenAI.messages
      (Sample.backend_request
         [Sample.translated "user" (str "Hi");
          Sample.translated "assistant" (str "Hello, world");
          Sample.translated "user" (str "Bye")]) =
      o1 ++ {| OpenAI.role := str "assistant";
               OpenAI.content :=
                 JStr (List.concat [lit "Hello, "; lit "world"]) |} :: o2 /\
    convert_messages Sample.no_numbers
      [Sample.message "user" (str "Bye")] = Some o2.
Proof.
  apply (text_parts_concatenated Sample.no_numbers
           Sample.text_parts_request Sample.env _
           [Sample.message "user" (str "Hi")]
           [Sample.message "user" (str "Bye")]
           (Sample.message "assistant"
              (JArr [Sample.text_part "Hello, "; Sample.text_part "world"]))
           (str "assistant")
           [Sample.text_part "Hello, "; Sample.text_part "world"]
           [lit "Hello, "; lit "world"]).
  - reflexivity.
  - reflexivity.
  - reflexivity.
  - repeat constructor.
  - reflexivity.
  - vm_compute. reflexivity.
Defined.

(** C8, on the code.  In prompt form the [system] field is never read:
    the first message is the first turn. *)
Lemma prompt_form_ignores_system :
  prop "system" Sample.prompt_system_request = Some (str "Be brief") /\
  convertAnthropicToOpenAI Sample.no_numbers Sample.prompt_system_request
    Sample.env =
  Some (Sample.backend_request [Sample.translated "user" (str "Hi");
                                Sample.translated "assistant" (str "Hello")]).
Proof. split; vm_compute; reflexivity. Qed.

Lemma system_message_first_witness :
  exists l rest,
    iterate (JArr [Sample.message "user" (str "Hi")]) = Some l /\
    convert_messages Sample.no_numbers l = Some rest /\
    OpenAI.messages
      (Sample.backend_request [Sample.translated "system" (str "Be brief");
                               Sample.translated "user" (str "Hi")]) =
      {| OpenAI.role := str "system"; OpenAI.content := str "Be brief" |}
      :: rest.
Proof.
  apply (system_message_first Sample.no_numbers Sample.system_request
           Sample.env _ (JArr [Sample.message "user" (str "Hi")])
           (str "Be brief")).
  - reflexivity.
  - reflexivity.
  - reflexivity.
  - reflexivity.
  - vm_compute. reflexivity.
Defined.

(** C9, on the code.  An assistant message whose only part is an empty
    text, or a part of a type that is dropped, is not skipped: it is
    translated to an assistant message with an empty string, or an empty
    sequence, as its content. *)
Lemma empty_assistant_content_translated :
  convertAnthropicToOpenAI Sample.no_numbers Sample.empty_text_request
    Sample.env =
  Some (Sample.backend_request [Sample.translated "user" (str "Hi");
                                Sample.translated "assistant" (str "")]) /\
  convertAnthropicToOpenAI Sample.no_numbers Sample.unknown_part_request
    Sample.env =
  Some (Sample.backend_request [Sample.translated "user" (str "Hi");
                                Sample.translated "assistant" (JArr [])]).
Proof. split; vm_compute; reflexivity. Qed.

Lemma empty_assistant_skipped_witness :
  exists system kept,
    prop "system" Sample.skipped_request = Some system /\
    OpenAI.messages
      (Sample.backend_request [Sample.translated "user" (str "Hi");
                               Sample.translated "user" (str "")]) =
      (if truthy system
       then [{| OpenAI.role := str "system"; OpenAI.content := system |}]
       else []) ++ kept /\
    Forall2 (fun m o => convert_message Sample.no_numbers m = Some (Some o))
            (filter (fun m => negb (skipped m))
                    [Sample.message "user" (str "Hi");
                     Sample.message "assistant" (JArr []);
                     Sample.message "assistant" (str "");
                     Sample.message "user" (JArr [])])
            kept.
Proof.
  apply (empty_assistant_skipped Sample.no_numbers Sample.skipped_request
           Sample.env).
  - reflexivity.
  - vm_compute. reflexivity.
Defined.

Lemma missing_assistant_content_throws_witness :
  convertAnthropicToOpenAI Sample.no_numbers Sample.missing_content_request
    Sample.env = None /\
  fetch Sample.no_numbers Sample.no_backend Sample.id
    (Sample.post
       "{'messages':[{'role':'user','content':'Hi'},{'role':'assistant'}]}")
    Sample.env =
    Error 500 "proxy_error" ProcessingError /\
  forall m' role' content',
    prop "role" m' = Some role' ->
    str_is "assistant" role' = false ->
    prop "content" m' = Some content' ->
    nullish content' = true ->
    convert_message Sample.no_numbers m' =
    Some (Some {| OpenAI.role := role'; OpenAI.content := JUndefined |}).
Proof.
  apply (missing_assistant_content_throws Sample.no_numbers
           Sample.no_backend Sample.id _ Sample.env
           Sample.missing_content_request
           [Sample.message "user" (str "Hi"); obj [("role", str "assistant")]]
           (obj [("role", str "assistant")]) JUndefined).
  - vm_compute. reflexivity.
  - vm_compute. reflexivity.
  - reflexivity.
  - right. left. reflexivity.
  - reflexivity.
  - reflexivity.
  - reflexivity.
Defined.

(** A user message with a [null] content goes through. *)
Example null_user_content_sample :
  option_map (fun req => convertAnthropicToOpenAI Sample.no_numbers req Sample.env)
    (JSON.parse (Sample.text "{'messages':[{'role':'user','content':null}]}")) =
  Some (Some (Sample.backend_request
                [{| OpenAI.role := str "user";
                    OpenAI.content := JUndefined |}])).
Proof. vm_compute. reflexivity. Qed.

(* ================================================================== *)
(** * Further properties of the stream reframer *)
(* ================================================================== *)

(* ------------------------------------------------------------------ *)
(** ** What reaches the client *)

Lemma lines_events_texts (id : jsstring) (lines : list jsstring) :
  forall sent : bool,
    delta_texts (lines_events id sent lines) = record_texts lines.
Proof.
  induction lines as [|l ls IH]; intros sent; [reflexivity|].
  cbn [lines_events]. unfold record_texts. cbn [flat_map].
  fold (record_texts ls).
  destruct (line_record l) as [[d f]|]; [|apply IH].
  unfold delta_texts. rewrite flat_map_app. fold (delta_texts (lines_events id true ls)).
  rewrite IH. f_equal.
  unfold record_events.
  destruct sent, (truthy d), (truthy f); reflexivity.
Qed.

(** The [content_block_delta] events answer, one for one and in order, to
    the truthy deltas of the records that are read, and a delta that is a
    string is written as it is: no text is lost, repeated, reordered or
    altered, and none is written for a record that is skipped. *)
Theorem deltas_verbatim_in_order (messageId : jsstring)
    (chunks : list (list byte)) :
  map string_value (delta_texts (processStream messageId chunks)) =
  map string_value (record_texts (stream_lines chunks)).
Proof. rewrite processStream_lines. f_equal. apply lines_events_texts. Qed.

Lemma lines_events_stops (id : jsstring) (lines : list jsstring) :
  forall sent : bool,
    stop_reasons (lines_events id sent lines) =
    map mapStopReason (record_finishes lines).
Proof.
  induction lines as [|l ls IH]; intros sent; [reflexivity|].
  cbn [lines_events]. unfold record_finishes. cbn [flat_map].
  fold (record_finishes ls).
  destruct (line_record l) as [[d f]|]; [|apply IH].
  unfold stop_reasons. rewrite flat_map_app, map_app.
  fold (stop_reasons (lines_events id true ls)).
  rewrite IH. f_equal.
  unfold record_events.
  destruct sent, (truthy d), (truthy f); reflexivity.
Qed.

(** The [message_delta] events answer, one for one and in order, to the
    truthy finish reasons of the records that are read, and a finish
    reason that is a string is written mapped by [mapStopReason]; none is
    written for a record that is skipped. *)
Theorem stop_reasons_mapped_in_order (messageId : jsstring)
    (chunks : list (list byte)) :
  map string_value (stop_reasons (processStream messageId chunks)) =
  map string_value
    (map mapStopReason (record_finishes (stream_lines chunks))).
Proof. rewrite processStream_lines. f_equal. apply lines_events_stops. Qed.

Lemma closing_paired_app (a : list event) :
  forall b,
    closing_paired a = true -> closing_paired b = true ->
    closing_paired (a ++ b) = true.
Proof.
  assert (forall n a, (List.length a <= n)%nat ->
          forall b, closing_paired a = true -> closing_paired b = true ->
                    closing_paired (a ++ b) = true) as H.
  { clear a. induction n as [|n IH]; intros a Hn b Ha Hb.
    - destruct a; [exact Hb|]. cbn [List.length] in Hn. lia.
    - destruct a as [|e a]; [exact Hb|]. cbn [List.length] in Hn.
      destruct e; cbn [app closing_paired] in *;
        try (apply IH; [lia|assumption..]).
      + destruct a as [|e' a]; [discriminate|].
        destruct e'; try discriminate.
        cbn [app List.length] in *. apply IH; [lia|assumption..].
      + discriminate. }
  intros b. now apply (H (List.length a)).
Qed.

Lemma record_events_paired (id : jsstring) (sent : bool) (d f : jsval) :
  closing_paired (record_events id sent d f) = true.
Proof.
  unfold record_events. destruct sent, (truthy d), (truthy f); reflexivity.
Qed.

Lemma lines_events_paired (id : jsstring) (lines : list jsstring) :
  forall sent : bool, closing_paired (lines_events id sent lines) = true.
Proof.
  induction lines as [|l ls IH]; intros sent; [reflexivity|].
  cbn [lines_events].
  destruct (line_record l) as [[d f]|]; [|apply IH].
  apply closing_paired_app; [apply record_events_paired|apply IH].
Qed.

(** Whatever the backend sends, a [message_delta] is never written without
    its [message_stop] right after it, and a [message_stop] never without
    its [message_delta] right before it. *)
Theorem closing_events_paired (messageId : jsstring)
    (chunks : list (list byte)) :
  closing_paired (processStream messageId chunks) = true.
Proof. rewrite processStream_lines. apply lines_events_paired. Qed.


(** A delta that cannot be made a string (an object with a [toString] of
    its own, or a sequence that holds one) makes its record a skipped one,
    finish signal and all; an object with a [valueOf] of its own is
    written. *)
Example unprintable_delta_sample :
  processStream Sample.id
    [Sample.line
       "data: {'choices':[{'delta':{'content':{'toString':1}},'finish_reason':'stop'}]}"]
    = [] /\
  processStream Sample.id
    [Sample.line "data: {'choices':[{'delta':{'content':[[{'toString':null}]]}}]}"]
    = [] /\
  processStream Sample.id
    [Sample.line "data: {'choices':[{'delta':{'content':{'valueOf':1}}}]}"]
    = [message_start Sample.id;
       content_block_delta (obj [("valueOf", JNum (num_of_nat 1))])].
Proof. repeat split; vm_compute; reflexivity. Qed.

(* ------------------------------------------------------------------ *)
(** ** Lines that are passed over *)

(** A line that is not read leaves no trace: the stream with it and the
    stream without it write the same events. *)
Lemma unread_line_removed (id : jsstring) (chunks chunks' : list (list byte))
    (before after : list jsstring) (l : jsstring) :
  stream_lines chunks = before ++ l :: after ->
  stream_lines chunks' = before ++ after ->
  line_record l = None ->
  processStream id chunks = processStream id chunks'.
Proof.
  intros Hcut Hcut' Hl.
  rewrite !processStream_lines, Hcut, Hcut', !lines_events_app.
  cbn [lines_events]. now rewrite Hl.
Qed.

Lemma jsstring_eqb_eq (a b : jsstring) : jsstring_eqb a b = true <-> a = b.
Proof.
  revert b; induction a as [|x a IH]; intros [|y b]; cbn [jsstring_eqb];
    try (split; [discriminate|discriminate]); [now split|].
  rewrite andb_true_iff, N.eqb_eq, IH. split.
  - now intros [-> ->].
  - now intros [= -> ->].
Qed.

(** A line without the [data:] prefix (a comment, a keep-alive, an empty
    line, an [event:] field) and the [[DONE]] sentinel write nothing and
    change nothing for the lines around them. *)
Theorem comment_and_sentinel_ignored (messageId : jsstring)
    (chunks chunks' : list (list byte)) (before after : list jsstring)
    (l : jsstring) :
  stream_lines chunks = before ++ l :: after ->
  stream_lines chunks' = before ++ after ->
  starts_with (lit "data:") l = false \/
  trim (skipn 5 l) = lit "[DONE]" ->
  processStream messageId chunks = processStream messageId chunks'.
Proof.
  intros Hcut Hcut' Hl.
  apply (unread_line_removed _ _ _ _ _ _ Hcut Hcut').
  unfold line_record, payload.
  destruct Hl as [->|Hdone]; [reflexivity|].
  destruct (starts_with (lit "data:") l); [|reflexivity]. cbn [negb].
  rewrite Hdone.
  now rewrite (proj2 (jsstring_eqb_eq _ _) eq_refl).
Qed.

Lemma comment_and_sentinel_ignored_witness :
  processStream Sample.id
    [Sample.line ": keep-alive" ++
     Sample.line "data: {'choices':[{'delta':{'content':'a'}}]}" ++
     Sample.line "" ++
     Sample.line "data:  [DONE] "] =
  processStream Sample.id
    [Sample.line ": keep-alive" ++
     Sample.line "data: {'choices':[{'delta':{'content':'a'}}]}" ++
     Sample.line ""].
Proof.
  apply (comment_and_sentinel_ignored Sample.id _ _
           [Sample.text ": keep-alive";
            Sample.text "data: {'choices':[{'delta':{'content':'a'}}]}";
            Sample.text ""]
           [] (Sample.text "data:  [DONE] ")).
  - vm_compute. reflexivity.
  - vm_compute. reflexivity.
  - right. vm_compute. reflexivity.
Defined.

(** A payload that parses but has no [choices] to index (an error object,
    [null], a number) is passed over like one that does not parse: the
    exception of [json.choices[0]] is caught and nothing is written. *)
Theorem record_without_choices_ignored (messageId : jsstring)
    (chunks chunks' : list (list byte)) (before after : list jsstring)
    (l data : jsstring) (json : jsval) :
  stream_lines chunks = before ++ l :: after ->
  stream_lines chunks' = before ++ after ->
  payload l = Some data ->
  JSON.parse data = Some json ->
  nullish json = true \/ nullish (prop_opt "choices" json) = true ->
  processStream messageId chunks = processStream messageId chunks'.
Proof.
  intros Hcut Hcut' Hdata Hjson Hnone.
  apply (unread_line_removed _ _ _ _ _ _ Hcut Hcut').
  unfold line_record. rewrite Hdata. cbn [bind].
  unfold read_record. rewrite Hjson. cbn [bind].
  destruct Hnone as [Hnull|Hchoices].
  - destruct json; try discriminate; reflexivity.
  - unfold prop_opt in Hchoices.
    destruct (prop "choices" json) as [c|]; [|reflexivity]. cbn [bind].
    destruct c; try discriminate; reflexivity.
Qed.

Lemma record_without_choices_ignored_witness :
  processStream Sample.id
    [Sample.line "data: {'choices':[{'delta':{'content':'a'}}]}" ++
     Sample.line "data: {'error':{'message':'overloaded'}}" ++
     Sample.line "data: {'choices':[{'delta':{'content':'b'}}]}"] =
  processStream Sample.id
    [Sample.line "data: {'choices':[{'delta':{'content':'a'}}]}" ++
     Sample.line "data: {'choices':[{'delta':{'content':'b'}}]}"].
Proof.
  apply (record_without_choices_ignored Sample.id _ _
           [Sample.text "data: {'choices':[{'delta':{'content':'a'}}]}"]
           [Sample.text "data: {'choices':[{'delta':{'content':'b'}}]}"]
           (Sample.text "data: {'error':{'message':'overloaded'}}")
           (Sample.text "{'error':{'message':'overloaded'}}")
           (obj [("error", obj [("message", str "overloaded")])])).
  - vm_compute. reflexivity.
  - vm_compute. reflexivity.
  - vm_compute. reflexivity.
  - vm_compute. reflexivity.
  - right. reflexivity.
Defined.

(* ------------------------------------------------------------------ *)
(** ** The end of the stream *)

Lemma land_low_bits (b : N) (n : N) :
  N.land b (N.ones n) = b mod 2 ^ n.
Proof. apply N.land_ones. Qed.

Lemma start_ok (bom : bool) (b : N) :
  decoder_ok (fst (TextDecoder.start bom b)) /\
  (b <> 10 -> forall cp, In cp (snd (TextDecoder.start bom b)) -> cp <> 10).
Proof.
  unfold TextDecoder.start, TextDecoder.in_range.
  destruct (b <=? 0x7F) eqn:H1.
  { split; [now left|]. intros Hb cp [<-|[]]. lia. }
  destruct ((0xC2 <=? b) && (b <=? 0xDF)) eqn:H2.
  { split; [|intros _ cp []]. right. cbn.
    apply andb_prop in H2. destruct H2 as [Ha Hb].
    apply N.leb_le in Ha, Hb.
    split; [lia|left].
    change 31 with (N.ones 5). rewrite land_low_bits.
    change (2 ^ 5) with 32. pose proof (N.mod_lt b 32).
    pose proof (N.div_mod b 32). lia. }
  destruct ((0xE0 <=? b) && (b <=? 0xEF)) eqn:H3.
  { split; [|intros _ cp []]. right. cbn.
    apply andb_prop in H3. destruct H3 as [Ha Hb].
    apply N.leb_le in Ha, Hb.
    split; [destruct (b =? 237); lia|].
    destruct (b =? 224) eqn:E.
    - right. lia.
    - left. apply N.eqb_neq in E.
      change 15 with (N.ones 4). rewrite land_low_bits.
      change (2 ^ 4) with 16. pose proof (N.mod_lt b 16).
      pose proof (N.div_mod b 16). lia. }
  destruct ((0xF0 <=? b) && (b <=? 0xF4)) eqn:H4.
  { split; [|intros _ cp []]. right. cbn.
    apply andb_prop in H4. destruct H4 as [Ha Hb].
    apply N.leb_le in Ha, Hb.
    split; [destruct (b =? 244); lia|].
    destruct (b =? 240) eqn:E.
    - right. lia.
    - left. apply N.eqb_neq in E.
      change 7 with (N.ones 3). rewrite land_low_bits.
      change (2 ^ 3) with 8. pose proof (N.mod_lt b 8).
      pose proof (N.div_mod b 8). lia. }
  split; [now left|]. intros _ cp [<-|[]]. lia.
Qed.

Lemma handler_ok (st : TextDecoder.state) (b : N) :
  decoder_ok st ->
  decoder_ok (fst (TextDecoder.handler st b)) /\
  (b <> 10 ->
   forall cp, In cp (snd (TextDecoder.handler st b)) -> cp <> 10).
Proof.
  intros Hst. unfold TextDecoder.handler.
  destruct (TextDecoder.bytes_needed st =? 0) eqn:Hn; [apply start_ok|].
  apply N.eqb_neq in Hn.
  destruct Hst as [Hst|[Hup Hcp]]; [contradiction|].
  destruct (negb _) eqn:Hin.
  - pose proof (start_ok (TextDecoder.bom_seen st) b) as [Hok Hout].
    destruct (TextDecoder.start (TextDecoder.bom_seen st) b) as [st' out].
    cbn [fst snd] in *. split; [exact Hok|].
    intros Hb cp [<-|Hcp']; [lia|now apply Hout].
  - apply negb_false_iff in Hin. unfold TextDecoder.in_range in Hin.
    apply andb_prop in Hin. destruct Hin as [Hlo Hhi].
    apply N.leb_le in Hlo, Hhi.
    set (cp' := N.lor (N.shiftl (TextDecoder.code_point st) 6)
                      (N.land b 63)).
    assert (cp' <> 0) as Hnz.
    { unfold cp'. rewrite N.lor_eq_0_iff, N.shiftl_eq_0_iff.
      intros [Hc Hl]. destruct Hcp as [Hcp|(_ & _ & Hlow)]; [contradiction|].
      revert Hl. change 63 with (N.ones 6). rewrite land_low_bits.
      change (2 ^ 6) with 64. pose proof (N.mod_lt b 64).
      pose proof (N.div_mod b 64). lia. }
    destruct (TextDecoder.bytes_seen st + 1 =? TextDecoder.bytes_needed st)
      eqn:Hdone; cbn [fst snd].
    + split; [now left|]. intros _ cp [<-|[]].
      apply N.eqb_eq in Hdone.
      destruct Hcp as [Hcp|(Hseen & Hneed & _)]; [|lia].
      intros H10. apply Hcp.
      assert (N.shiftr cp' 6 = 0) as Hs by (rewrite H10; reflexivity).
      unfold cp' in Hs.
      rewrite N.shiftr_lor, N.lor_eq_0_iff in Hs. destruct Hs as [Hs _].
      rewrite N.shiftr_shiftl_l in Hs by lia.
      now rewrite N.sub_diag, N.shiftl_0_r in Hs.
    + split; [|intros _ cp []].
      right. cbn. split; [lia|]. left. exact Hnz.
Qed.

Lemma utf16_no_lf (cp : N) : cp <> 10 -> ~ In 10 (TextDecoder.utf16 cp).
Proof.
  intros Hcp. unfold TextDecoder.utf16.
  destruct (cp <? 65536).
  - intros [H|[]]. now apply Hcp.
  - intros [H|[H|[]]]; lia.
Qed.

Lemma serialize_no_lf (out : list N) :
  forall bom,
    (forall cp, In cp out -> cp <> 10) ->
    ~ In 10 (snd (TextDecoder.serialize bom out)).
Proof.
  induction out as [|cp out IH]; intros bom H; [intros []|].
  assert (cp <> 10) as Hcp by (apply H; now left).
  assert (forall c, In c out -> c <> 10) as H' by (intros c Hc; apply H; now right).
  cbn [TextDecoder.serialize].
  assert (~ In 10 (snd (let '(b, s) := TextDecoder.serialize true out in
                        (b, TextDecoder.utf16 cp ++ s)))) as Hkeep.
  { specialize (IH true H').
    destruct (TextDecoder.serialize true out) as [b s]. cbn [snd] in *.
    intros Hin. apply in_app_or in Hin.
    destruct Hin as [Hin|Hin]; [now apply (utf16_no_lf cp Hcp)|now apply IH]. }
  destruct bom; [exact Hkeep|].
  destruct (cp =? 65279); [now apply IH|exact Hkeep].
Qed.

Lemma step_ok (st : TextDecoder.state) (b : byte) :
  decoder_ok st ->
  decoder_ok (fst (TextDecoder.step st b)) /\
  (Byte.to_N b <> 10 -> ~ In 10 (snd (TextDecoder.step st b))).
Proof.
  intros Hst. unfold TextDecoder.step.
  pose proof (handler_ok st (Byte.to_N b) Hst) as [Hok Hout].
  destruct (TextDecoder.handler st (Byte.to_N b)) as [st' out].
  cbn [fst snd] in *.
  pose proof (serialize_no_lf out (TextDecoder.bom_seen st')) as Hser.
  destruct (TextDecoder.serialize (TextDecoder.bom_seen st') out) as [bom s].
  cbn [fst snd] in *. split.
  - exact Hok.
  - intros Hb. apply Hser. now apply Hout.
Qed.

Lemma decode_ok (value : list byte) :
  forall st,
    decoder_ok st ->
    decoder_ok (fst (TextDecoder.decode st value)) /\
    (no_line_feed value = true ->
     ~ In 10 (snd (TextDecoder.decode st value))).
Proof.
  induction value as [|b value IH]; intros st Hst.
  - split; [exact Hst|]. intros _ [].
  - cbn [TextDecoder.decode no_line_feed forallb].
    pose proof (step_ok st b Hst) as [Hok Hout].
    destruct (TextDecoder.step st b) as [st1 s1]. cbn [fst snd] in *.
    specialize (IH st1 Hok). destruct IH as [IHok IHout].
    destruct (TextDecoder.decode st1 value) as [st2 s2]. cbn [fst snd] in *.
    split; [exact IHok|].
    intros H. apply andb_prop in H. destruct H as [Hb Hrest].
    apply negb_true_iff, N.eqb_neq in Hb.
    intros Hin. apply in_app_or in Hin.
    destruct Hin as [Hin|Hin]; [now apply Hout|now apply IHout].
Qed.

Lemma partial_no_lf (s : jsstring) : ~ In 10 (partial s).
Proof.
  induction s as [|c s IH]; [intros []|].
  rewrite partial_cons. destruct (c =? 10) eqn:Hc; [exact IH|].
  destruct (complete s); [|exact IH].
  apply N.eqb_neq in Hc. intros [H|H]; [congruence|now apply IH].
Qed.

Lemma complete_no_lf (s : jsstring) : ~ In 10 s -> complete s = [].
Proof.
  induction s as [|c s IH]; intros H; [reflexivity|].
  rewrite complete_cons.
  destruct (c =? 10) eqn:Hc.
  - apply N.eqb_eq in Hc. exfalso. apply H. now left.
  - rewrite IH; [reflexivity|]. intros Hin. apply H. now right.
Qed.

(** What follows the last line feed of the stream is never processed: a
    last chunk without a line feed byte, and so a last record that the
    backend did not terminate, writes nothing. *)
Theorem unterminated_tail_dropped (messageId : jsstring)
    (chunks : list (list byte)) (tail : list byte) :
  no_line_feed tail = true ->
  processStream messageId (chunks ++ [tail]) = processStream messageId chunks.
Proof.
  intros Htail. rewrite !processStream_lines. f_equal.
  unfold stream_lines, stream_text.
  rewrite concat_app. cbn [List.concat]. rewrite app_nil_r, decode_app.
  assert (decoder_ok TextDecoder.init) as Hinit by now left.
  pose proof (decode_ok (List.concat chunks) _ Hinit) as [Hok _].
  destruct (TextDecoder.decode TextDecoder.init (List.concat chunks))
    as [st1 text]. cbn [fst snd] in *.
  pose proof (decode_ok tail _ Hok) as [_ Hout]. specialize (Hout Htail).
  destruct (TextDecoder.decode st1 tail) as [st2 t2]. cbn [fst snd] in *.
  rewrite complete_app, (complete_no_lf (partial text ++ t2)).
  - apply app_nil_r.
  - intros Hin. apply in_app_or in Hin.
    destruct Hin as [Hin|Hin]; [now apply (partial_no_lf text)|now apply Hout].
Qed.

Lemma unterminated_tail_dropped_witness :
  processStream Sample.id
    ([Sample.line "data: {'choices':[{'delta':{'content':'a'}}]}"] ++
     [Sample.bytes "data: {'choices':[{'delta':{},'finish_reason':'stop'}]}"]) =
  processStream Sample.id
    [Sample.line "data: {'choices':[{'delta':{'content':'a'}}]}"].
Proof.
  apply (unterminated_tail_dropped Sample.id). reflexivity.
Defined.

(* ================================================================== *)
(** * Further properties of the request translator *)
(* ================================================================== *)

Section MoreRequestProperties.

Variable number_to_string : jsnum -> jsstring.

Local Abbreviation convert := (convertAnthropicToOpenAI number_to_string).
Local Abbreviation message_of := (convert_message number_to_string).
Local Abbreviation messages_of := (convert_messages number_to_string).
Local Abbreviation content_of := (convert_content number_to_string).

(* ------------------------------------------------------------------ *)
(** ** What the translation reads *)

(** The model of the backend request is the configured one, whatever the
    request asks for. *)
Theorem model_is_configured (req : jsval) (env : environment)
    (out : OpenAI.request) :
  convert req env = Some out ->
  OpenAI.model out = env_value (OPENAI_MODEL_ID env).
Proof.
  unfold convertAnthropicToOpenAI, bind.
  destruct (build_messages number_to_string req); [|discriminate].
  destruct (prop "stream" req); [|discriminate].
  destruct (prop "temperature" req); [|discriminate].
  destruct (prop "max_tokens" req); [|discriminate].
  destruct (prop "top_p" req); [|discriminate].
  now intros [= <-].
Qed.

(** The translation reads seven fields of the request and no other: two
    requests that agree on them ([model], [top_k], [metadata] or anything
    else may differ) are translated alike. *)
Theorem only_seven_fields_read (req req' : jsval) (env : environment) :
  prop "messages" req = prop "messages" req' ->
  prop "system" req = prop "system" req' ->
  prop "prompt" req = prop "prompt" req' ->
  prop "stream" req = prop "stream" req' ->
  prop "temperature" req = prop "temperature" req' ->
  prop "max_tokens" req = prop "max_tokens" req' ->
  prop "top_p" req = prop "top_p" req' ->
  convert req env = convert req' env.
Proof.
  intros Hm Hs Hp Hst Ht Hmt Htp.
  unfold convertAnthropicToOpenAI, build_messages.
  now rewrite Hm, Hs, Hp, Hst, Ht, Hmt, Htp.
Qed.

(* ------------------------------------------------------------------ *)
(** ** When the translation throws *)

Lemma prop_nullish (name : string) (v : jsval) :
  nullish v = true -> prop name v = None.
Proof. destruct v; try discriminate; reflexivity. Qed.

Lemma prop_not_nullish (name : string) (v : jsval) :
  nullish v = false -> prop name v = Some (prop_opt name v).
Proof. destruct v; try discriminate; reflexivity. Qed.

Lemma prop_some_not_nullish (name : string) (v x : jsval) :
  prop name v = Some x -> nullish v = false /\ prop_opt name v = x.
Proof.
  unfold prop_opt. intros H. rewrite H.
  destruct v; try discriminate; now split.
Qed.

Lemma str_is_text_not_image (t : jsval) :
  str_is "text" t = true -> str_is "image" t = false.
Proof.
  destruct t; try discriminate. cbn [str_is].
  intros H. apply jsstring_eqb_eq in H. now subst.
Qed.

Lemma rewrite_part_safe (part : jsval) :
  (exists item, rewrite_part part = Some item) <-> safe_part part = true.
Proof.
  unfold safe_part, rewrite_part.
  destruct (nullish part) eqn:Hn.
  - rewrite (prop_nullish _ _ Hn). cbn. split; [now intros [? ?]|discriminate].
  - rewrite !(prop_not_nullish _ _ Hn). cbn [bind negb andb].
    destruct (str_is "text" (prop_opt "type" part)) eqn:Ht.
    + rewrite (str_is_text_not_image _ Ht). cbn. split; eauto.
    + destruct (str_is "image" (prop_opt "type" part)); cbn [negb orb].
      * destruct (nullish (prop_opt "source" part)) eqn:Hs.
        -- rewrite (prop_nullish _ _ Hs). cbn.
           split; [now intros [? ?]|discriminate].
        -- rewrite !(prop_not_nullish _ _ Hs). cbn [bind negb].
           destruct (truthy (prop_opt "url" (prop_opt "source" part)));
             cbn [bind]; split; eauto.
      * split; eauto.
Qed.

Lemma map_throwing_all {A} (f : jsval -> option A) (l : list jsval) :
  (exists ys, map_throwing f l = Some ys) <->
  (forall x, In x l -> exists y, f x = Some y).
Proof.
  induction l as [|x l IH]; cbn [map_throwing].
  - split; [intros _ ? []|eauto].
  - split.
    + intros [ys H] z Hz.
      destruct (f x) as [y|] eqn:Hx; [|discriminate]. cbn [bind] in H.
      destruct (map_throwing f l) as [ys'|]; [|discriminate].
      destruct Hz as [<-|Hz]; [eauto|].
      apply (proj1 IH); eauto.
    + intros H. destruct (H x (or_introl eq_refl)) as [y ->]. cbn [bind].
      destruct (proj2 IH) as [ys ->]; [intros z Hz; apply H; now right|].
      cbn [bind]. eauto.
Qed.

Lemma every_text_cases (parts : list jsval) :
  match every_text parts with
  | Some true =>
      all_text parts = true /\
      forall p, In p parts -> nullish p = false
  | Some false => all_text parts = false
  | None => exists p, In p parts /\ nullish p = true
  end.
Proof.
  induction parts as [|p parts IH]; cbn [every_text all_text forallb];
    [split; [reflexivity|intros ? []]|].
  fold (all_text parts).
  destruct (nullish p) eqn:Hn.
  - rewrite (prop_nullish _ _ Hn). cbn [bind]. exists p. split; [now left|easy].
  - rewrite (prop_not_nullish _ _ Hn). cbn [bind].
    destruct (str_is "text" (prop_opt "type" p)) eqn:Ht; [|reflexivity].
    cbn [andb].
    destruct (every_text parts) as [[|]|].
    + destruct IH as [Hall Hnn]. split; [exact Hall|].
      intros q [<-|Hq]; [exact Hn|now apply Hnn].
    + exact IH.
    + destruct IH as [q [Hq Hnq]]. exists q. split; [now right|easy].
Qed.

(** Induction on a value through the elements of its sequences. *)
Lemma jsval_elements_ind (P : jsval -> Prop) :
  (forall v, (forall l, v <> JArr l) -> P v) ->
  (forall l, Forall P l -> P (JArr l)) ->
  forall v, P v.
Proof.
  intros Hleaf Harr. fix IH 1. intros v.
  destruct v as [| |b|n|s|l|fs]; try (apply Hleaf; discriminate).
  apply Harr. revert l. fix IHl 1. intros [|x l]; constructor.
  - apply IH.
  - apply IHl.
Qed.

(** ToString returns exactly for the values that are printable. *)
Lemma to_string_printable :
  forall v, (exists s, to_string number_to_string v = Some s) <->
            printable v = true.
Proof.
  induction v as [v Hv|l Hl] using jsval_elements_ind.
  - destruct v as [| |b|n|s|l|fs]; cbn [to_string printable];
      try (split; eauto; fail).
    + now destruct (Hv l).
    + destruct (lookup (lit "toString") fs);
        split; eauto; try discriminate. intros [? ?]; discriminate.
  - cbn [to_string printable].
    induction Hl as [|x l Hx Hl IHl]; [split; eauto|].
    assert ((exists s, match x with
                       | JUndefined | JNull => Some []
                       | _ => to_string number_to_string x
                       end = Some s) <-> printable x = true) as Hx'.
    { destruct x; try exact Hx; split; eauto. }
    destruct (match x with
              | JUndefined | JNull => Some []
              | _ => to_string number_to_string x
              end) as [sx|].
    + rewrite (proj1 Hx') by eauto. cbn [andb]. rewrite <- IHl.
      match goal with
      | |- context [match ?j with Some _ => _ | None => _ end] =>
          destruct j
      end; split; eauto; intros [? ?]; discriminate.
    + destruct (printable x); [|split; [intros [? ?]|]; discriminate].
      destruct (proj2 Hx' eq_refl). discriminate.
Qed.

Lemma join_empty_printable (l : list jsval) :
  (exists s, join_empty number_to_string l = Some s) <->
  forallb printable l = true.
Proof.
  induction l as [|x l IH]; cbn [join_empty forallb]; [split; eauto|].
  assert ((exists s, match x with
                     | JUndefined | JNull => Some []
                     | _ => to_string number_to_string x
                     end = Some s) <-> printable x = true) as Hx.
  { destruct x; try apply to_string_printable; split; eauto. }
  rewrite andb_true_iff, <- IH, <- Hx.
  destruct (match x with
            | JUndefined | JNull => Some []
            | _ => to_string number_to_string x
            end) as [sx|]; cbn [bind].
  - destruct (join_empty number_to_string l); cbn [bind].
    + split; eauto.
    + split; [intros [? ?]; discriminate|intros [_ [? ?]]; discriminate].
  - split; [intros [? ?]; discriminate|intros [[? ?] _]; discriminate].
Qed.

Lemma forallb_over_map {A B} (f : B -> bool) (g : A -> B) (l : list A) :
  forallb f (map g l) = forallb (fun x => f (g x)) l.
Proof.
  induction l as [|x l IH]; [reflexivity|]. cbn [map forallb]. now rewrite IH.
Qed.

Lemma map_throwing_prop (name : string) (parts : list jsval) :
  (forall p, In p parts -> nullish p = false) ->
  map_throwing (prop name) parts = Some (map (prop_opt name) parts).
Proof.
  induction parts as [|p parts IH]; intros H; [reflexivity|].
  cbn [map_throwing map].
  rewrite (prop_not_nullish _ _ (H p (or_introl eq_refl))). cbn [bind].
  rewrite IH; [reflexivity|]. intros q Hq. apply H. now right.
Qed.

Lemma convert_content_safe (parts : list jsval) :
  (exists c, content_of (JArr parts) = Some c) <->
  safe_parts parts = true.
Proof.
  unfold safe_parts. cbn [convert_content].
  pose proof (every_text_cases parts) as Hev.
  destruct (every_text parts) as [[|]|]; cbn [bind].
  - destruct Hev as [Hall Hnn]. rewrite Hall. cbn [negb orb].
    rewrite (map_throwing_prop "text" parts Hnn). cbn [bind].
    assert (forallb safe_part parts = true) as ->.
    { apply forallb_forall. intros p Hp. unfold safe_part.
      rewrite (Hnn p Hp).
      unfold all_text in Hall. rewrite forallb_forall in Hall.
      now rewrite (str_is_text_not_image _ (Hall p Hp)). }
    cbn [andb]. rewrite <- (forallb_over_map printable), <- join_empty_printable.
    destruct (join_empty number_to_string (map (prop_opt "text") parts));
      cbn [bind]; split; eauto; intros [? ?]; discriminate.
  - rewrite Hev. cbn [negb orb]. rewrite andb_true_r, forallb_forall. split.
    + intros [c H] p Hp.
      destruct (map_throwing rewrite_part parts) as [items|] eqn:E;
        [|discriminate].
      apply rewrite_part_safe.
      apply (proj1 (map_throwing_all rewrite_part parts)); eauto.
    + intros H.
      destruct (proj2 (map_throwing_all rewrite_part parts)) as [ys ->].
      * intros p Hp. apply rewrite_part_safe. now apply H.
      * cbn [bind]. eauto.
  - split; [now intros [? ?]|].
    intros H. destruct Hev as [p [Hp Hn]].
    apply andb_prop in H. destruct H as [H _].
    rewrite forallb_forall in H.
    specialize (H p Hp). unfold safe_part in H. rewrite Hn in H. discriminate.
Qed.

Lemma convert_message_safe (m : jsval) :
  (exists r, message_of m = Some r) <-> safe_message m = true.
Proof.
  unfold convert_message, empty_assistant, safe_message.
  destruct (nullish m) eqn:Hn.
  - rewrite (prop_nullish _ _ Hn). cbn. split; [now intros [? ?]|discriminate].
  - rewrite !(prop_not_nullish _ _ Hn). cbn [bind negb andb].
    set (content := prop_opt "content" m).
    assert ((exists c, content_of content = Some c) <->
            match content with
            | JArr parts => safe_parts parts
            | _ => true
            end = true) as Hcontent.
    { destruct content; try (split; cbn; eauto; fail).
      apply convert_content_safe. }
    assert ((exists r,
               (converted <- content_of content ;;
                Some (Some {| OpenAI.role := prop_opt "role" m;
                              OpenAI.content := converted |})) = Some r) <->
            match content with
            | JArr parts => safe_parts parts
            | _ => true
            end = true) as Hpush.
    { rewrite <- Hcontent.
      destruct (content_of content); cbn [bind];
        split; eauto; intros [? ?]; discriminate. }
    destruct (str_is "assistant" (prop_opt "role" m)); cbn [negb orb];
      [|exact Hpush].
    destruct (nullish content) eqn:Hc.
    + destruct content; try discriminate; cbn;
        (split; [now intros [? ?]|discriminate]).
    + assert (exists len, length_of content = Some len) as [len Hlen]
        by (destruct content; try discriminate; cbn; eauto).
      rewrite Hlen. cbn [bind negb andb].
      destruct (is_number_zero len) eqn:Hzero; [|exact Hpush].
      split; [intros _|eauto].
      destruct content; try reflexivity.
      cbn [length_of] in Hlen. injection Hlen as <-.
      cbn [is_number_zero] in Hzero. rewrite num_of_nat_zero in Hzero.
      destruct elems; [reflexivity|discriminate].
Qed.

Lemma convert_messages_safe (l : list jsval) :
  (exists r, messages_of l = Some r) <-> forallb safe_message l = true.
Proof.
  induction l as [|m l IH]; cbn [convert_messages forallb].
  - split; eauto.
  - rewrite andb_true_iff, <- IH, <- convert_message_safe.
    destruct (message_of m) as [o|]; cbn [bind].
    + destruct (messages_of l) as [ms|]; cbn [bind].
      * split; eauto.
      * split; [intros [? ?]; discriminate|intros [_ [? ?]]; discriminate].
    + split; [intros [? ?]; discriminate|intros [[? ?] _]; discriminate].
Qed.

(** In messages form, the translation returns a backend request exactly
    when no message is [null], every assistant message has a content, no
    part of a content sequence is [null], an image part has a source, and
    the texts of a sequence of text parts can be joined (none is an object
    with a [toString] of its own, or a sequence that holds one); otherwise
    it throws. *)
Theorem translates_iff_safe (req : jsval) (env : environment)
    (l : list jsval) :
  prop "messages" req = Some (JArr l) ->
  ((exists out, convert req env = Some out) <->
   forallb safe_message l = true).
Proof.
  intros Hreq. rewrite <- convert_messages_safe. split.
  - intros [out Hout]. apply convert_messages_of in Hout.
    destruct (build_messages_array _ _ _ _ Hreq Hout) as (kept & _ & Hk & _).
    eauto.
  - intros [kept Hk].
    destruct (prop_defined "messages" "system" _ _ Hreq) as [system Hsys].
    destruct (convert_built number_to_string req env
                (if truthy system
                 then {| OpenAI.role := str "system";
                         OpenAI.content := system |} :: kept
                 else kept) _ Hreq) as [out [Hout _]]; [|eauto].
    unfold build_messages. rewrite Hreq. cbn [bind truthy iterate].
    rewrite Hk. cbn [bind]. rewrite Hsys. reflexivity.
Qed.

(* ------------------------------------------------------------------ *)
(** ** Plain messages *)

Lemma convert_message_plain (m : jsval) :
  plain_message m = true -> message_of m = Some (Some (copied m)).
Proof.
  unfold plain_message, convert_message, empty_assistant, copied.
  destruct (nullish m) eqn:Hn.
  { destruct m; try discriminate; cbn; discriminate. }
  rewrite !(prop_not_nullish _ _ Hn). cbn [bind].
  destruct (prop_opt "content" m) as [| | | |s| |]; try discriminate.
  intros H. apply negb_true_iff in H. cbn [length_of bind is_number_zero].
  rewrite num_of_nat_zero.
  destruct (str_is "assistant" (prop_opt "role" m)); [|reflexivity].
  cbn [andb] in H. destruct s; [discriminate|reflexivity].
Qed.

Lemma convert_messages_plain (l : list jsval) :
  forallb plain_message l = true -> messages_of l = Some (map copied l).
Proof.
  induction l as [|m l IH]; [reflexivity|].
  cbn [forallb convert_messages map]. intros H.
  apply andb_prop in H. destruct H as [Hm Hl].
  now rewrite (convert_message_plain m Hm), (IH Hl).
Qed.

(** A conversation of plain messages (each content a string; no assistant
    message with the empty string) is translated message by message: the
    roles and the texts are copied as they are, in order, none is added
    but the system message, none is dropped, and the roles are not
    checked. *)
Theorem plain_messages_copied (req : jsval) (env : environment)
    (l : list jsval) :
  prop "messages" req = Some (JArr l) ->
  forallb plain_message l = true ->
  exists out,
    convert req env = Some out /\
    OpenAI.messages out = system_messages req ++ map copied l.
Proof.
  intros Hreq Hplain.
  apply (convert_built number_to_string req env _ _ Hreq).
  unfold build_messages, system_messages, prop_opt.
  rewrite Hreq. cbn [bind truthy iterate].
  rewrite (convert_messages_plain l Hplain). cbn [bind].
  destruct (prop_defined "messages" "system" _ _ Hreq) as [system ->].
  cbn [bind]. now destruct (truthy system).
Qed.

(* ------------------------------------------------------------------ *)
(** ** The legacy format, there and back *)

Lemma trim_start_app (a b : jsstring) :
  trim_start (a ++ b) =
  match trim_start a with [] => trim_start b | t => t ++ b end.
Proof.
  induction a as [|c a IH]; [reflexivity|].
  cbn [app trim_start]. destruct (is_js_space c); [exact IH|reflexivity].
Qed.

Lemma trim_end_cons (c : N) (s : jsstring) :
  trim_end (c :: s) =
  match trim_end s with
  | [] => if is_js_space c then [] else [c]
  | t => c :: t
  end.
Proof.
  unfold trim_end. cbn [rev]. rewrite trim_start_app.
  destruct (trim_start (rev s)) as [|x t] eqn:E.
  - cbn [rev trim_start]. now destruct (is_js_space c).
  - rewrite rev_app_distr. cbn [rev app].
    destruct (rev t ++ [x]) eqn:E'; [|reflexivity].
    now destruct (rev t).
Qed.

Lemma trim_end_keeps_prefix (p y : jsstring) :
  p <> [] -> forallb (fun c => negb (is_js_space c)) p = true ->
  exists t, trim_end (p ++ y) = p ++ t.
Proof.
  induction p as [|c p IH]; [contradiction|]. intros _ H.
  cbn [forallb] in H. apply andb_prop in H. destruct H as [Hc Hp].
  apply negb_true_iff in Hc.
  cbn [app]. rewrite trim_end_cons.
  destruct p as [|d p].
  - cbn [app]. destruct (trim_end y); [|eauto].
    rewrite Hc. now exists [].
  - destruct (IH ltac:(discriminate) Hp) as [t ->]. cbn [app]. eauto.
Qed.

Lemma starts_with_app (p t : jsstring) : starts_with p (p ++ t) = true.
Proof.
  induction p as [|c p IH]; [reflexivity|].
  cbn [app starts_with]. now rewrite N.eqb_refl.
Qed.

Lemma split_turns_from_human (cur rest : jsstring) :
  split_turns_from 0 cur (human_delimiter ++ rest) =
  rev cur :: split_turns_from 0 [] rest.
Proof. reflexivity. Qed.

Lemma split_turns_from_assistant (cur rest : jsstring) :
  split_turns_from 0 cur (assistant_delimiter ++ rest) =
  rev cur :: split_turns_from 0 [] rest.
Proof. reflexivity. Qed.

(** No delimiter begins inside a text without an empty line, when the
    text is the last or a delimiter follows it. *)
Lemma split_turns_from_text (t : jsstring) :
  forall cur rest,
    no_blank_line t = true ->
    rest = [] \/ (exists r, rest = 10 :: 10 :: r) ->
    split_turns_from 0 cur (t ++ rest) =
    split_turns_from 0 (rev t ++ cur) rest.
Proof.
  induction t as [|c t IH]; intros cur rest Ht Hrest; [reflexivity|].
  cbn [no_blank_line] in Ht. apply andb_prop in Ht. destruct Ht as [Hc Ht].
  apply negb_true_iff in Hc.
  cbn [app rev]. rewrite <- app_assoc. cbn [app].
  rewrite <- (IH (c :: cur) rest Ht Hrest).
  cbn [split_turns_from].
  assert (starts_with human_delimiter (c :: t ++ rest) = false /\
          starts_with assistant_delimiter (c :: t ++ rest) = false)
    as [-> ->]; [|reflexivity].
  unfold human_delimiter, assistant_delimiter. cbn [app starts_with].
  rewrite (N.eqb_sym c 10) in Hc.
  destruct (10 =? c) eqn:E; [|now split]. cbn [andb] in *.
  destruct t as [|d t].
  - cbn [app]. destruct Hrest as [->|[r ->]]; [now split|].
    cbn. now split.
  - cbn [app]. rewrite (N.eqb_sym 10 d), Hc. now split.
Qed.

Lemma render_turns_shape (fromHuman : bool) (turns : list jsstring) :
  render_turns fromHuman turns = [] \/
  exists r, render_turns fromHuman turns = 10 :: 10 :: r.
Proof.
  destruct turns as [|t turns]; [now left|right].
  cbn [render_turns]. destruct fromHuman; eexists; reflexivity.
Qed.

Lemma split_turns_render (turns : list jsstring) :
  forall fromHuman cur,
    forallb no_blank_line turns = true ->
    split_turns_from 0 cur (render_turns fromHuman turns) = rev cur :: turns.
Proof.
  induction turns as [|t turns IH]; intros fromHuman cur H; [reflexivity|].
  cbn [forallb] in H. apply andb_prop in H. destruct H as [Ht Hts].
  cbn [render_turns].
  assert (split_turns_from 0 cur
            ((if fromHuman then human_delimiter else assistant_delimiter) ++
             t ++ render_turns (negb fromHuman) turns) =
          rev cur ::
          split_turns_from 0 [] (t ++ render_turns (negb fromHuman) turns))
    as ->.
  { destruct fromHuman;
      [apply split_turns_from_human|apply split_turns_from_assistant]. }
  rewrite (split_turns_from_text t [] _ Ht (render_turns_shape _ _)).
  rewrite (IH _ _ Hts), app_nil_r, rev_involutive. reflexivity.
Qed.

Lemma prompt_messages_of_turns (turns : list jsstring) :
  forall fromHuman,
    forallb (fun t => negb (blank t)) turns = true ->
    prompt_messages fromHuman turns = turn_messages fromHuman turns.
Proof.
  induction turns as [|t turns IH]; intros fromHuman H; [reflexivity|].
  cbn [forallb] in H. apply andb_prop in H. destruct H as [Ht Hts].
  apply negb_true_iff in Ht. unfold blank, empty_segment, is_nil in Ht.
  cbn [prompt_messages turn_messages].
  destruct (trim t); [discriminate|]. now rewrite (IH _ Hts).
Qed.

Lemma render_starts_with_human (fromHuman : bool) (t : jsstring)
    (turns : list jsstring) :
  starts_with (lit "Human:") (trim (render_turns fromHuman (t :: turns))) =
  fromHuman.
Proof.
  cbn [render_turns].
  set (rest := t ++ render_turns (negb fromHuman) turns).
  change (trim ?s) with (trim_end (trim_start s)).
  destruct fromHuman.
  - change (trim_start (human_delimiter ++ rest))
      with (lit "Human:" ++ (32 :: rest)).
    destruct (trim_end_keeps_prefix (lit "Human:") (32 :: rest))
      as [x ->]; [discriminate|reflexivity|].
    apply starts_with_app.
  - change (trim_start (assistant_delimiter ++ rest))
      with ([65] ++ (lit "ssistant: " ++ rest)).
    destruct (trim_end_keeps_prefix [65] (lit "ssistant: " ++ rest))
      as [x ->]; [discriminate|reflexivity|].
    reflexivity.
Qed.

(** A conversation written in the legacy format (turns that alternate,
    each after its delimiter, none blank and none holding an empty line)
    is read back turn by turn: one message for each turn, with the role of
    its speaker and its text trimmed. *)
Theorem legacy_conversation_recovered (req : jsval) (env : environment)
    (msgs : jsval) (fromHuman : bool) (turns : list jsstring) :
  prop "messages" req = Some msgs ->
  truthy msgs = false ->
  prop "prompt" req = Some (JStr (render_turns fromHuman turns)) ->
  forallb no_blank_line turns = true ->
  forallb (fun t => negb (blank t)) turns = true ->
  exists out,
    convert req env = Some out /\
    OpenAI.messages out = turn_messages fromHuman turns.
Proof.
  intros Hmsgs Hfalsy Hprompt Hlines Hblank.
  apply (convert_built number_to_string req env _ _ Hmsgs).
  unfold build_messages. rewrite Hmsgs. cbn [bind]. rewrite Hfalsy, Hprompt.
  cbn [bind].
  destruct turns as [|t turns]; [reflexivity|].
  assert (truthy (JStr (render_turns fromHuman (t :: turns))) = true) as ->.
  { cbn [render_turns]. now destruct fromHuman. }
  rewrite render_starts_with_human.
  unfold split_turns. rewrite (split_turns_render _ _ _ Hlines).
  change (prompt_messages fromHuman (rev [] :: t :: turns))
    with (prompt_messages fromHuman (t :: turns)).
  now rewrite (prompt_messages_of_turns _ _ Hblank).
Qed.

End MoreRequestProperties.

Lemma model_is_configured_witness :
  OpenAI.model
    (Sample.backend_request [Sample.translated "user" (str "Hi")]) =
  env_value (OPENAI_MODEL_ID Sample.env).
Proof.
  apply (model_is_configured Sample.no_numbers
           (obj [("model", str "claude-3-opus");
                 ("messages", JArr [Sample.message "user" (str "Hi")])])
           Sample.env).
  vm_compute. reflexivity.
Defined.

Lemma only_seven_fields_read_witness :
  convertAnthropicToOpenAI Sample.no_numbers
    (obj [("model", str "claude-3-opus");
          ("top_k", JNum (num_of_nat 40));
          ("messages", JArr [Sample.message "user" (str "Hi")]);
          ("system", str "Be brief")])
    Sample.env =
  convertAnthropicToOpenAI Sample.no_numbers Sample.system_request Sample.env.
Proof.
  apply (only_seven_fields_read Sample.no_numbers); reflexivity.
Defined.

Lemma translates_iff_safe_witness :
  (exists out,
     convertAnthropicToOpenAI Sample.no_numbers Sample.text_parts_request
       Sample.env = Some out) <->
  forallb safe_message
    [Sample.message "user" (str "Hi");
     Sample.message "assistant"
       (JArr [Sample.text_part "Hello, "; Sample.text_part "world"]);
     Sample.message "user" (str "Bye")] = true.
Proof.
  apply (translates_iff_safe Sample.no_numbers). reflexivity.
Defined.

(** A text that is an object with a [toString] of its own cannot be
    joined: the translation throws.  In a mixed content no text is
    printed, and the same part goes through. *)
Example unprintable_text_sample :
  option_map (fun req => convertAnthropicToOpenAI Sample.no_numbers req Sample.env)
    (JSON.parse (Sample.text
       "{'messages':[{'role':'user','content':[{'type':'text','text':{'toString':1}}]}]}"))
    = Some None /\
  option_map
    (fun req =>
       option_map (fun out => List.length (OpenAI.messages out))
         (convertAnthropicToOpenAI Sample.no_numbers req Sample.env))
    (JSON.parse (Sample.text
       "{'messages':[{'role':'user','content':[{'type':'text','text':{'toString':1}},{'type':'other'}]}]}"))
    = Some (Some 1%nat).
Proof. split; vm_compute; reflexivity. Qed.

Lemma plain_messages_copied_witness :
  exists out,
    convertAnthropicToOpenAI Sample.no_numbers Sample.system_request
      Sample.env = Some out /\
    OpenAI.messages out =
      system_messages Sample.system_request ++
      map copied [Sample.message "user" (str "Hi")].
Proof.
  apply (plain_messages_copied Sample.no_numbers); reflexivity.
Defined.

Lemma legacy_conversation_recovered_witness :
  exists out,
    convertAnthropicToOpenAI Sample.no_numbers
      (obj [("prompt",
             JStr (render_turns true
                     [lit "Hi" ++ [10] ++ lit "there "; lit "Hello"; lit "Bye"]))])
      Sample.env = Some out /\
    OpenAI.messages out =
      turn_messages true
        [lit "Hi" ++ [10] ++ lit "there "; lit "Hello"; lit "Bye"].
Proof.
  apply (legacy_conversation_recovered Sample.no_numbers _ Sample.env
           JUndefined true
           [lit "Hi" ++ [10] ++ lit "there "; lit "Hello"; lit "Bye"]);
    reflexivity.
Defined.

(* ================================================================== *)
(** * Further properties of the reframer: line endings, stop reasons *)
(* ================================================================== *)

Lemma starts_with_snoc (p : jsstring) (x : N) :
  forallb (fun c => negb (c =? x)) p = true ->
  forall l, starts_with p (l ++ [x]) = starts_with p l.
Proof.
  induction p as [|c p IH]; intros Hp l; [reflexivity|].
  cbn [forallb] in Hp. apply andb_prop in Hp. destruct Hp as [Hc Hp].
  apply negb_true_iff in Hc.
  destruct l as [|y l]; cbn [app starts_with].
  - now rewrite Hc.
  - now rewrite (IH Hp).
Qed.

Lemma trim_snoc_space (s : jsstring) (x : N) :
  is_js_space x = true -> trim (s ++ [x]) = trim s.
Proof.
  intros Hx. unfold trim. rewrite trim_start_app.
  destruct (trim_start s) as [|c t] eqn:E.
  - cbn [trim_start]. now rewrite Hx.
  - rewrite rev_app_distr. cbn [rev app trim_start]. now rewrite Hx.
Qed.

Lemma line_record_cr (l : jsstring) : line_record (l ++ [13]) = line_record l.
Proof.
  unfold line_record, payload.
  rewrite (starts_with_snoc (lit "data:") 13 eq_refl).
  destruct (starts_with (lit "data:") l) eqn:Hdata; [|reflexivity].
  cbn [negb]. apply starts_with_length in Hdata.
  rewrite skipn_app.
  replace (5 - List.length l)%nat with 0%nat
    by (change (List.length (lit "data:")) with 5%nat in Hdata; lia).
  cbn [skipn]. now rewrite (trim_snoc_space _ 13 eq_refl).
Qed.

Lemma lines_events_cr (id : jsstring) (lines : list jsstring) :
  forall sent,
    lines_events id sent (map (fun l => l ++ [13]) lines) =
    lines_events id sent lines.
Proof.
  induction lines as [|l ls IH]; intros sent; [reflexivity|].
  cbn [map lines_events]. rewrite line_record_cr.
  destruct (line_record l) as [[d f]|]; now rewrite IH.
Qed.

(** Lines that end in a carriage return and a line feed are read like
    lines that end in a line feed alone. *)
Theorem carriage_returns_ignored (messageId : jsstring)
    (chunks chunks' : list (list byte)) :
  stream_lines chunks' = map (fun l => l ++ [13]) (stream_lines chunks) ->
  processStream messageId chunks' = processStream messageId chunks.
Proof.
  intros H. rewrite !processStream_lines, H. apply lines_events_cr.
Qed.

Lemma carriage_returns_ignored_witness :
  processStream Sample.id
    [Sample.bytes "data: {'choices':[{'delta':{'content':'a'}}]}" ++
     [x0d; x0a; x0d; x0a] ++
     Sample.bytes "data: [DONE]" ++ [x0d; x0a]] =
  processStream Sample.id
    [Sample.line "data: {'choices':[{'delta':{'content':'a'}}]}" ++
     Sample.line "" ++
     Sample.line "data: [DONE]"].
Proof.
  apply carriage_returns_ignored. vm_compute. reflexivity.
Defined.

(** No stop reason that comes out of [mapStopReason] is one of the three
    backend words it maps, so mapping twice is mapping once. *)
Theorem mapStopReason_leaves_no_backend_word (finishReason : jsval) :
  str_is "stop" (mapStopReason finishReason) = false /\
  str_is "length" (mapStopReason finishReason) = false /\
  str_is "content_filter" (mapStopReason finishReason) = false /\
  mapStopReason (mapStopReason finishReason) = mapStopReason finishReason.
Proof.
  assert (mapStopReason finishReason = str "end_turn" \/
          mapStopReason finishReason = str "max_tokens" \/
          mapStopReason finishReason = str "stop_sequence" \/
          (mapStopReason finishReason = finishReason /\
           str_is "stop" finishReason = false /\
           str_is "length" finishReason = false /\
           str_is "content_filter" finishReason = false))
    as [->|[->|[->|(E & H1 & H2 & H3)]]].
  { unfold mapStopReason.
    destruct (str_is "stop" finishReason); [now left|].
    destruct (str_is "length" finishReason); [now right; left|].
    destruct (str_is "content_filter" finishReason);
      [now right; right; left|].
    right; right; right. now repeat split. }
  - now repeat split.
  - now repeat split.
  - now repeat split.
  - rewrite !E. now repeat split.
Qed.

(* ================================================================== *)
(** * Properties of the response translator and of the handler *)
(* ================================================================== *)

(** A response with a first choice that has a message, and with a usage,
    is translated; only that first choice is read.  The content and the
    token counts are copied, the finish reason is mapped, and the model is
    the one the caller asked for, [claude-proxy] when it asked for none. *)
Theorem response_translated (messageId : jsstring)
    (openaiResponse originalRequest choice message usage : jsval)
    (others : list jsval) :
  nullish originalRequest = false ->
  prop "choices" openaiResponse = Some (JArr (choice :: others)) ->
  prop "message" choice = Some message ->
  nullish message = false ->
  prop "usage" openaiResponse = Some usage ->
  nullish usage = false ->
  convertOpenAIToAnthropic messageId openaiResponse originalRequest =
  Some {| Anthropic.id := messageId;
          Anthropic.content := prop_opt "content" message;
          Anthropic.model :=
            js_or (prop_opt "model" originalRequest) (str "claude-proxy");
          Anthropic.stop_reason :=
            mapStopReason (prop_opt "finish_reason" choice);
          Anthropic.input_tokens := prop_opt "prompt_tokens" usage;
          Anthropic.output_tokens := prop_opt "completion_tokens" usage |}.
Proof.
  intros Hreq Hchoices Hmessage Hm Husage Hu.
  unfold convertOpenAIToAnthropic.
  rewrite Hchoices. cbn [bind index0]. rewrite Hmessage. cbn [bind].
  destruct (prop_some_not_nullish _ _ _ Hmessage) as [Hc _].
  rewrite (prop_not_nullish "content" _ Hm),
          (prop_not_nullish "model" _ Hreq),
          (prop_not_nullish "finish_reason" _ Hc), Husage.
  cbn [bind].
  rewrite (prop_not_nullish "prompt_tokens" _ Hu),
          (prop_not_nullish "completion_tokens" _ Hu).
  reflexivity.
Qed.

Lemma response_translated_witness :
  convertOpenAIToAnthropic Sample.id
    (obj [("choices",
           JArr [obj [("message", obj [("content", str "Hello")]);
                      ("finish_reason", str "stop")];
                 obj [("message", obj [("content", str "Other")])]]);
          ("usage", obj [("prompt_tokens", JNum (num_of_nat 3));
                         ("completion_tokens", JNum (num_of_nat 1))])])
    (obj [("messages", JArr [Sample.message "user" (str "Hi")])]) =
  Some {| Anthropic.id := Sample.id;
          Anthropic.content :=
            prop_opt "content" (obj [("content", str "Hello")]);
          Anthropic.model :=
            js_or (prop_opt "model"
                     (obj [("messages",
                            JArr [Sample.message "user" (str "Hi")])]))
                  (str "claude-proxy");
          Anthropic.stop_reason :=
            mapStopReason
              (prop_opt "finish_reason"
                 (obj [("message", obj [("content", str "Hello")]);
                       ("finish_reason", str "stop")]));
          Anthropic.input_tokens :=
            prop_opt "prompt_tokens"
              (obj [("prompt_tokens", JNum (num_of_nat 3));
                    ("completion_tokens", JNum (num_of_nat 1))]);
          Anthropic.output_tokens :=
            prop_opt "completion_tokens"
              (obj [("prompt_tokens", JNum (num_of_nat 3));
                    ("completion_tokens", JNum (num_of_nat 1))]) |}.
Proof.
  apply (response_translated Sample.id _ _ _ _ _
           [obj [("message", obj [("content", str "Other")])]]);
    reflexivity.
Defined.

(* ------------------------------------------------------------------ *)
(** ** Who is let in *)

Lemma split_on_no_sep (sep : N) (k : jsstring) :
  forallb (fun c => negb (c =? sep)) k = true -> split_on sep k = [k].
Proof.
  induction k as [|c k IH]; [reflexivity|]. cbn [forallb split_on].
  intros H. apply andb_prop in H. destruct H as [Hc Hk].
  apply negb_true_iff in Hc. now rewrite Hc, (IH Hk).
Qed.

Lemma split_on_app_sep (sep : N) (k rest : jsstring) :
  forallb (fun c => negb (c =? sep)) k = true ->
  split_on sep (k ++ sep :: rest) = k :: split_on sep rest.
Proof.
  induction k as [|c k IH]; cbn [app forallb split_on].
  - intros _. now rewrite N.eqb_refl.
  - intros H. apply andb_prop in H. destruct H as [Hc Hk].
    apply negb_true_iff in Hc. now rewrite Hc, (IH Hk).
Qed.

(** Splitting the configured string gives the keys back. *)
Lemma split_on_join_commas (keys : list jsstring) :
  keys <> [] ->
  forallb (forallb (fun c => negb (c =? 44))) keys = true ->
  split_on 44 (join_commas keys) = keys.
Proof.
  induction keys as [|k keys IH]; [contradiction|]. intros _ H.
  cbn [forallb] in H. apply andb_prop in H. destruct H as [Hk Hks].
  destruct keys as [|k' keys].
  - now apply split_on_no_sep.
  - change (join_commas (k :: k' :: keys))
      with (k ++ 44 :: join_commas (k' :: keys)).
    rewrite (split_on_app_sep _ _ _ Hk), IH; [reflexivity|discriminate|exact Hks].
Qed.

Lemma existsb_jsstring (key : jsstring) (keys : list jsstring) :
  existsb (jsstring_eqb key) keys = true <-> In key keys.
Proof.
  rewrite existsb_exists. split.
  - intros [k [Hin Hk]]. apply jsstring_eqb_eq in Hk. now subst.
  - intros Hin. exists key. split; [exact Hin|now apply jsstring_eqb_eq].
Qed.

(** A POST to one of the two paths passes the checks exactly when its
    bearer token is one of the keys the operator configured (keys
    separated by commas, none holding a comma). *)
Theorem authorized_iff_key_configured (request : http_request)
    (env : environment) (key : jsstring) (keys : list jsstring) :
  jsstring_eqb (method request) (lit "POST") = true ->
  ends_with (lit "/messages") (pathname request) ||
  ends_with (lit "/completions") (pathname request) = true ->
  authorization request = Some (lit "Bearer " ++ key) ->
  ANTHROPIC_API_KEYS env = Some (join_commas keys) ->
  join_commas keys <> [] ->
  forallb (forallb (fun c => negb (c =? 44))) keys = true ->
  (reject request env = None <-> In key keys).
Proof.
  intros Hpost Hpath Hauth Hkeys Hne Hcommas.
  unfold reject. rewrite Hpost, Hauth, Hkeys. cbn [negb].
  apply orb_true_iff in Hpath.
  assert (negb (ends_with (lit "/messages") (pathname request)) &&
          negb (ends_with (lit "/completions") (pathname request)) = false)
    as -> by (destruct Hpath as [-> | ->]; cbn; [reflexivity|apply andb_false_r]).
  rewrite starts_with_app. cbn [negb].
  change (skipn 7 (lit "Bearer " ++ key)) with key.
  assert (keys <> []) as Hks by (intros ->; now apply Hne).
  destruct (join_commas keys) as [|c ks] eqn:E; [contradiction|].
  rewrite <- E, (split_on_join_commas keys Hks Hcommas).
  destruct keys as [|k keys]; [contradiction|]. cbn [List.length Nat.eqb orb].
  rewrite <- existsb_jsstring.
  destruct (existsb (jsstring_eqb key) (k :: keys)); cbn [negb];
    split; congruence.
Qed.

(** With no key configured ([ANTHROPIC_API_KEYS] not set, or empty), no
    request passes the checks: each is answered 405, 404 or 401. *)
Theorem no_keys_no_access (request : http_request) (env : environment) :
  ANTHROPIC_API_KEYS env = None \/ ANTHROPIC_API_KEYS env = Some [] ->
  reject request env = Some (Plain 405 "Method not allowed") \/
  reject request env = Some (Plain 404 "Not found") \/
  reject request env =
    Some (Error 401 "authentication_error" MissingAuthorization) \/
  reject request env = Some (Error 401 "authentication_error" InvalidApiKey).
Proof.
  intros Hkeys. unfold reject.
  destruct (negb (jsstring_eqb (method request) (lit "POST"))); [now left|].
  destruct (negb (ends_with (lit "/messages") (pathname request)) &&
            negb (ends_with (lit "/completions") (pathname request)));
    [now right; left|].
  destruct (authorization request) as [h|]; [|now right; right; left].
  destruct (negb (starts_with (lit "Bearer ") h)); [now right; right; left|].
  right; right; right.
  now destruct Hkeys as [-> | ->].
Qed.

Lemma reject_never_succeeds (request : http_request) (env : environment)
    (r : response) :
  reject request env = Some r ->
  match r with Plain _ _ | Error _ _ _ => True | _ => False end.
Proof.
  unfold reject.
  destruct (negb (jsstring_eqb (method request) (lit "POST")));
    [now intros [= <-]|].
  destruct (negb (ends_with (lit "/messages") (pathname request)) &&
            negb (ends_with (lit "/completions") (pathname request)));
    [now intros [= <-]|].
  destruct (authorization request) as [h|]; [|now intros [= <-]].
  destruct (negb (starts_with (lit "Bearer ") h)); [now intros [= <-]|].
  match goal with |- (if ?c then _ else _) = _ -> _ => destruct c end;
    [now intros [= <-]|discriminate].
Qed.

Section HandlerComposition.

Variable number_to_string : jsnum -> jsstring.
Variable messageId : jsstring.

Local Abbreviation convert := (convertAnthropicToOpenAI number_to_string).
Local Abbreviation handle := (fetch number_to_string).
Local Abbreviation forward_to := (forward number_to_string).

(* ------------------------------------------------------------------ *)
(** ** When the backend is called *)

(** A request that is rejected, whose body is not JSON, or whose
    translation throws never reaches the backend: the response is the
    same whatever the backend would have answered. *)
Theorem backend_not_reached
    (backend backend' : OpenAI.request -> option backend_response)
    (request : http_request) (env : environment) :
  reject request env <> None \/
  JSON.parse (body request) = None \/
  (exists req, JSON.parse (body request) = Some req /\
               convert req env = None) ->
  handle backend messageId request env = handle backend' messageId request env.
Proof.
  intros H. unfold fetch.
  destruct (reject request env) as [r|]; [reflexivity|].
  destruct H as [H|[H|[req [Hreq H]]]]; [contradiction| |];
    unfold forward; rewrite ?H, ?Hreq; cbn [bind]; [reflexivity|].
  destruct (prop "stream" req); cbn [bind]; [|reflexivity].
  now rewrite H.
Qed.

(* ------------------------------------------------------------------ *)
(** ** What the handler answers *)

(** What it takes for the body of the [try] to end in an event stream. *)
Lemma forward_event_stream
    (backend : OpenAI.request -> option backend_response)
    (request : http_request) (env : environment) (events : list event) :
  forward_to backend messageId request env = Some (EventStream events) ->
  exists req out resp,
    JSON.parse (body request) = Some req /\
    prop "stream" req = Some (JBool true) /\
    convert req env = Some out /\
    OpenAI.stream out = true /\
    backend out = Some resp /\
    ok resp = true /\
    events = processStream messageId (body_stream resp).
Proof.
  unfold forward.
  destruct (JSON.parse (body request)) as [req|]; [|discriminate].
  cbn [bind].
  destruct (prop "stream" req) as [s|] eqn:Hs; [|discriminate]. cbn [bind].
  destruct (convert req env) as [out|] eqn:Hout; [|discriminate]. cbn [bind].
  destruct (backend out) as [resp|] eqn:Hresp; [|discriminate]. cbn [bind].
  destruct (ok resp) eqn:Hok; cbn [negb].
  - assert (OpenAI.stream out = truthy s) as Hstream.
    { revert Hout. unfold convertAnthropicToOpenAI, bind.
      destruct (build_messages number_to_string req); [|discriminate].
      rewrite Hs.
      destruct (prop "temperature" req); [|discriminate].
      destruct (prop "max_tokens" req); [|discriminate].
      destruct (prop "top_p" req); [|discriminate].
      now intros [= <-]. }
    destruct s as [| |[|]| | | |];
      try (destruct (json resp); [|discriminate]; cbn [bind];
           destruct (convertOpenAIToAnthropic _ _ _); discriminate).
    intros [= <-]. exists req, out, resp. now repeat split.
  - destruct (json resp) as [e|]; [|discriminate]. cbn [bind].
    destruct (prop "error" e) as [detail|]; [|discriminate]. cbn [bind].
    destruct (printable _); discriminate.
Qed.

(** The handler answers with an event stream only to a request whose
    [stream] is exactly [true] and that the backend accepted; the backend
    was then asked to stream, and the events are those of [processStream]
    on the body of its response. *)
Theorem event_stream_only_when_asked
    (backend : OpenAI.request -> option backend_response)
    (request : http_request) (env : environment) (events : list event) :
  handle backend messageId request env = EventStream events ->
  exists req out resp,
    JSON.parse (body request) = Some req /\
    prop "stream" req = Some (JBool true) /\
    convert req env = Some out /\
    OpenAI.stream out = true /\
    backend out = Some resp /\
    ok resp = true /\
    events = processStream messageId (body_stream resp).
Proof.
  unfold fetch.
  destruct (reject request env) as [r|] eqn:Hrej.
  { intros ->. now apply reject_never_succeeds in Hrej. }
  destruct (forward_to backend messageId request env) as [r|] eqn:Hfwd;
    [|discriminate].
  intros ->. now apply forward_event_stream.
Qed.

(** A [stream] that is truthy without being [true] (1, a string) asks the
    backend to stream, and yet the handler does not reframe: it never
    answers with an event stream. *)
Theorem truthy_stream_not_reframed
    (backend : OpenAI.request -> option backend_response)
    (request : http_request) (env : environment) (req s : jsval) :
  JSON.parse (body request) = Some req ->
  prop "stream" req = Some s ->
  truthy s = true ->
  s <> JBool true ->
  (forall out, convert req env = Some out -> OpenAI.stream out = true) /\
  (forall events,
     handle backend messageId request env <> EventStream events).
Proof.
  intros Hreq Hs Htruthy Hnot. split.
  - intros out. unfold convertAnthropicToOpenAI, bind.
    destruct (build_messages number_to_string req); [|discriminate].
    rewrite Hs.
    destruct (prop "temperature" req); [|discriminate].
    destruct (prop "max_tokens" req); [|discriminate].
    destruct (prop "top_p" req); [|discriminate].
    now intros [= <-].
  - intros events. unfold fetch.
    destruct (reject request env) as [r|] eqn:Hrej.
    { intros ->. now apply reject_never_succeeds in Hrej. }
    destruct (forward_to backend messageId request env) as [r|] eqn:Hfwd;
      [|discriminate].
    intros ->. apply forward_event_stream in Hfwd.
    destruct Hfwd as (req' & out & resp & Hreq' & Hs' & _).
    congruence.
Qed.


(** A backend response without a first choice (no choice at all, or no
    [choices]) to a request that did not ask for a stream is a fault: the
    handler answers 500 with an error of type [proxy_error]. *)
Theorem no_choice_is_a_fault
    (backend : OpenAI.request -> option backend_response)
    (request : http_request) (env : environment)
    (req s : jsval) (out : OpenAI.request) (resp : backend_response)
    (data : jsval) :
  reject request env = None ->
  JSON.parse (body request) = Some req ->
  prop "stream" req = Some s ->
  s <> JBool true ->
  convert req env = Some out ->
  backend out = Some resp ->
  ok resp = true ->
  json resp = Some data ->
  prop_opt "choices" data = JArr [] \/ nullish (prop_opt "choices" data) = true ->
  handle backend messageId request env =
  Error 500 "proxy_error" ProcessingError.
Proof.
  intros Hpass Hreq Hs Hnot Hout Hresp Hok Hjson Hchoices.
  unfold fetch, forward. rewrite Hpass, Hreq. cbn [bind].
  rewrite Hs. cbn [bind]. rewrite Hout. cbn [bind]. rewrite Hresp.
  cbn [bind]. rewrite Hok, Hjson. cbn [negb bind].
  assert (convertOpenAIToAnthropic messageId data req = None) as ->.
  { unfold convertOpenAIToAnthropic, prop_opt in *.
    destruct (prop "choices" data) as [c|]; [|reflexivity]. cbn [bind].
    destruct Hchoices as [->|Hn]; [reflexivity|].
    destruct c; try discriminate; reflexivity. }
  destruct s as [| |[|]| | | |]; try reflexivity. now contradiction Hnot.
Qed.

End HandlerComposition.

Lemma authorized_iff_key_configured_witness :
  reject (Sample.post "{}") Sample.env = None <->
  In (lit "sk-ant-two") [lit "sk-ant-one"; lit "sk-ant-two"].
Proof.
  apply (authorized_iff_key_configured (Sample.post "{}") Sample.env
           (lit "sk-ant-two") [lit "sk-ant-one"; lit "sk-ant-two"]);
    try reflexivity.
  discriminate.
Defined.

Lemma no_keys_no_access_witness :
  let env := {| OPENAI_API_URL := None; OPENAI_API_KEY := None;
                OPENAI_MODEL_ID := None; ANTHROPIC_API_KEYS := Some [] |} in
  reject (Sample.post "{}") env = Some (Plain 405 "Method not allowed") \/
  reject (Sample.post "{}") env = Some (Plain 404 "Not found") \/
  reject (Sample.post "{}") env =
    Some (Error 401 "authentication_error" MissingAuthorization) \/
  reject (Sample.post "{}") env =
    Some (Error 401 "authentication_error" InvalidApiKey).
Proof.
  apply no_keys_no_access. right. reflexivity.
Defined.

(** A backend that answers every request with the given response. *)
Lemma backend_not_reached_witness :
  fetch Sample.no_numbers Sample.no_backend Sample.id
    (Sample.post "{'messages':[null]}") Sample.env =
  fetch Sample.no_numbers
    (fun _ => Some {| ok := true; status := 200; json := None;
                      body_stream := [] |})
    Sample.id (Sample.post "{'messages':[null]}") Sample.env.
Proof.
  apply backend_not_reached. right. right.
  exists (obj [("messages", JArr [JNull])]).
  split; vm_compute; reflexivity.
Defined.

Lemma event_stream_only_when_asked_witness :
  let backend := fun _ : OpenAI.request =>
    Some {| ok := true; status := 200; json := None;
            body_stream :=
              [Sample.line "data: {'choices':[{'delta':{'content':'Hi'}}]}"] |} in
  let request :=
    Sample.post "{'messages':[{'role':'user','content':'Hi'}],'stream':true}" in
  exists req out resp,
    JSON.parse (body request) = Some req /\
    prop "stream" req = Some (JBool true) /\
    convertAnthropicToOpenAI Sample.no_numbers req Sample.env = Some out /\
    OpenAI.stream out = true /\
    backend out = Some resp /\
    ok resp = true /\
    [message_start Sample.id; content_block_delta (str "Hi")] =
      processStream Sample.id (body_stream resp).
Proof.
  intros backend request.
  apply (event_stream_only_when_asked Sample.no_numbers Sample.id
           backend request Sample.env).
  vm_compute. reflexivity.
Defined.

Lemma truthy_stream_not_reframed_witness :
  let backend := fun _ : OpenAI.request =>
    Some {| ok := true; status := 200; json := None;
            body_stream :=
              [Sample.line "data: {'choices':[{'delta':{'content':'Hi'}}]}"] |} in
  let request :=
    Sample.post "{'messages':[{'role':'user','content':'Hi'}],'stream':1}" in
  (forall out,
     convertAnthropicToOpenAI Sample.no_numbers
       (obj [("messages", JArr [Sample.message "user" (str "Hi")]);
             ("stream", JNum (num_of_nat 1))]) Sample.env = Some out ->
     OpenAI.stream out = true) /\
  (forall events,
     fetch Sample.no_numbers backend Sample.id request Sample.env <>
     EventStream events).
Proof.
  intros backend request.
  apply (truthy_stream_not_reframed Sample.no_numbers Sample.id backend
           request Sample.env _ (JNum (num_of_nat 1))).
  - vm_compute. reflexivity.
  - reflexivity.
  - reflexivity.
  - discriminate.
Defined.


(** A message of the backend that cannot be written into a string is a
    fault of the handler: it answers 500, not the status of the backend. *)
Example unprintable_error_message_sample :
  let resp := {| ok := false; status := 429;
                 json := Some (obj [("error",
                                     obj [("message",
                                           obj [("toString",
                                                 JNum (num_of_nat 1))])])]);
                 body_stream := [] |} in
  fetch Sample.no_numbers (fun _ => Some resp) Sample.id
    (Sample.post "{'messages':[{'role':'user','content':'Hi'}]}") Sample.env =
  Error 500 "proxy_error" ProcessingError.
Proof. vm_compute. reflexivity. Qed.

Lemma no_choice_is_a_fault_witness :
  let resp := {| ok := true; status := 200;
                 json := Some (obj [("choices", JArr [])]);
                 body_stream := [] |} in
  fetch Sample.no_numbers (fun _ => Some resp) Sample.id
    (Sample.post "{'messages':[{'role':'user','content':'Hi'}]}") Sample.env =
  Error 500 "proxy_error" ProcessingError.
Proof.
  intros resp.
  apply (no_choice_is_a_fault Sample.no_numbers Sample.id
           (fun _ => Some resp) _ Sample.env
           (obj [("messages", JArr [Sample.message "user" (str "Hi")])])
           JUndefined
           (Sample.backend_request [Sample.translated "user" (str "Hi")])
           resp (obj [("choices", JArr [])]));
    try reflexivity.
  - discriminate.
  - left. reflexivity.
Defined.

(* ================================================================== *)
(** * Incremental output, trimmed turns, mixed contents *)
(* ================================================================== *)

Lemma process_chunks_app (id : jsstring) (a b : list (list byte)) :
  forall st,
    process_chunks id st (a ++ b) =
    let '(st1, out1) := process_chunks id st a in
    let '(st2, out2) := process_chunks id st1 b in
    (st2, out1 ++ out2).
Proof.
  induction a as [|c a IH]; intros st; cbn [app process_chunks].
  - now destruct (process_chunks id st b).
  - destruct (process_chunk id st c) as [st1 o1]. rewrite IH.
    destruct (process_chunks id st1 a) as [st2 o2].
    destruct (process_chunks id st2 b) as [st3 o3].
    now rewrite app_assoc.
Qed.

(** What is written is written: the chunks that come later only append
    events after those of the chunks read so far. *)
Theorem later_chunks_only_append (messageId : jsstring)
    (chunks later : list (list byte)) :
  exists more,
    processStream messageId (chunks ++ later) =
    processStream messageId chunks ++ more.
Proof.
  unfold processStream. rewrite process_chunks_app.
  destruct (process_chunks messageId stream_init chunks) as [st1 o1].
  destruct (process_chunks messageId st1 later) as [st2 o2].
  now exists o2.
Qed.

Lemma trim_start_idem (s : jsstring) : trim_start (trim_start s) = trim_start s.
Proof.
  induction s as [|c s IH]; [reflexivity|]. cbn [trim_start].
  destruct (is_js_space c) eqn:E; [exact IH|].
  cbn [trim_start]. now rewrite E.
Qed.

Lemma trim_start_trim_end (s : jsstring) :
  trim_start s = s -> trim_start (trim_end s) = trim_end s.
Proof.
  destruct s as [|c s]; [reflexivity|]. intros H.
  assert (is_js_space c = false) as Hc.
  { cbn [trim_start] in H. destruct (is_js_space c); [|reflexivity].
    pose proof (f_equal (@List.length N) H) as L. cbn [List.length] in L.
    assert (forall x : jsstring,
              (List.length (trim_start x) <= List.length x)%nat) as Hle.
    { induction x as [|d x IHx]; [reflexivity|]. cbn [trim_start].
      destruct (is_js_space d); cbn [List.length]; lia. }
    specialize (Hle s). lia. }
  rewrite trim_end_cons.
  destruct (trim_end s); rewrite ?Hc; cbn [trim_start]; now rewrite Hc.
Qed.

Lemma trim_idem (s : jsstring) : trim (trim s) = trim s.
Proof.
  change (trim (trim s)) with (trim_end (trim_start (trim_end (trim_start s)))).
  change (trim s) with (trim_end (trim_start s)).
  rewrite (trim_start_trim_end _ (trim_start_idem s)).
  unfold trim_end. now rewrite rev_involutive, trim_start_idem.
Qed.

Lemma prompt_messages_trimmed (parts : list jsstring) :
  forall isHuman m,
    In m (prompt_messages isHuman parts) ->
    (OpenAI.role m = str "user" \/ OpenAI.role m = str "assistant") /\
    exists s, OpenAI.content m = JStr s /\ s <> [] /\ trim s = s.
Proof.
  induction parts as [|p parts IH]; intros isHuman m Hm; [contradiction|].
  cbn [prompt_messages] in Hm.
  destruct (trim p) as [|c t] eqn:Hp; [now apply (IH isHuman)|].
  destruct Hm as [<-|Hm]; [|now apply (IH (negb isHuman))].
  cbn [OpenAI.role OpenAI.content]. split.
  - destruct isHuman; auto.
  - exists (c :: t). split; [reflexivity|]. split; [discriminate|].
    rewrite <- Hp. apply trim_idem.
Qed.

Section MoreTranslation.

Variable number_to_string : jsnum -> jsstring.

Local Abbreviation convert := (convertAnthropicToOpenAI number_to_string).
Local Abbreviation content_of := (convert_content number_to_string).

(** In prompt form every message has role [user] or [assistant] and a
    content that is a string, not empty, with no white space at either
    end. *)
Theorem prompt_form_trimmed (req : jsval) (env : environment)
    (out : OpenAI.request) (msgs : jsval) (m : OpenAI.message) :
  prop "messages" req = Some msgs ->
  truthy msgs = false ->
  convert req env = Some out ->
  In m (OpenAI.messages out) ->
  (OpenAI.role m = str "user" \/ OpenAI.role m = str "assistant") /\
  exists s, OpenAI.content m = JStr s /\ s <> [] /\ trim s = s.
Proof.
  intros Hmsgs Hfalsy Hout Hm.
  apply convert_messages_of in Hout. revert Hout.
  unfold build_messages. rewrite Hmsgs. cbn [bind]. rewrite Hfalsy.
  destruct (prop "prompt" req) as [prompt|]; [|discriminate]. cbn [bind].
  destruct (truthy prompt).
  - destruct prompt; try discriminate. intros [= H]. rewrite <- H in Hm.
    now apply prompt_messages_trimmed in Hm.
  - intros [= H]. rewrite <- H in Hm. contradiction.
Qed.

Lemma map_throwing_forall2 {A} (f : jsval -> option A) (l : list jsval) :
  forall ys,
    map_throwing f l = Some ys -> Forall2 (fun x y => f x = Some y) l ys.
Proof.
  induction l as [|x l IH]; intros ys H; cbn [map_throwing] in H.
  - injection H as <-. constructor.
  - destruct (f x) as [y|] eqn:Hx; [|discriminate]. cbn [bind] in H.
    destruct (map_throwing f l) as [ys'|]; [|discriminate].
    injection H as <-. constructor; [exact Hx|now apply IH].
Qed.

Lemma rewrite_part_known (part item : jsval) :
  rewrite_part part = Some item -> not_null item = known_part part.
Proof.
  unfold rewrite_part, known_part. intros H.
  destruct (prop "type" part) as [t|] eqn:Ht; [|discriminate].
  apply prop_some_not_nullish in Ht. destruct Ht as [_ ->].
  cbn [bind] in H.
  destruct (str_is "text" t).
  - destruct (prop "text" part); [|discriminate]. now injection H as <-.
  - destruct (str_is "image" t).
    + destruct (prop "source" part) as [s|]; [|discriminate]. cbn [bind] in H.
      destruct (prop "url" s) as [u|]; [|discriminate]. cbn [bind] in H.
      destruct (if truthy u then Some u else prop "data" s); [|discriminate].
      cbn [bind] in H.
      destruct (prop "media_type" s); [|discriminate].
      now injection H as <-.
    + now injection H as <-.
Qed.

(** A content that is not text parts only is translated part by part: the
    parts of a known type ([text], [image]) are rewritten, in order, and
    the parts of any other type are dropped. *)
Theorem mixed_content_rewritten (parts : list jsval) (converted : jsval) :
  every_text parts = Some false ->
  content_of (JArr parts) = Some converted ->
  exists items,
    converted = JArr items /\
    Forall2 (fun part item => rewrite_part part = Some item)
            (filter known_part parts) items.
Proof.
  intros Hmixed. cbn [convert_content]. rewrite Hmixed. cbn [bind].
  destruct (map_throwing rewrite_part parts) as [ys|] eqn:E; [|discriminate].
  intros [= <-]. eexists; split; [reflexivity|].
  apply map_throwing_forall2 in E. clear Hmixed.
  induction E as [|part y parts ys Hy _ IH]; [constructor|].
  cbn [filter]. rewrite (rewrite_part_known _ _ Hy).
  destruct (known_part part); [constructor; assumption|exact IH].
Qed.

End MoreTranslation.

Lemma prompt_form_trimmed_witness :
  (OpenAI.role (Sample.translated "user" (str "Hi")) = str "user" \/
   OpenAI.role (Sample.translated "user" (str "Hi")) = str "assistant") /\
  exists s,
    OpenAI.content (Sample.translated "user" (str "Hi")) = JStr s /\
    s <> [] /\ trim s = s.
Proof.
  apply (prompt_form_trimmed Sample.no_numbers Sample.blank_turn_request
           Sample.env
           (Sample.backend_request [Sample.translated "user" (str "Hi")])
           JUndefined).
  - reflexivity.
  - reflexivity.
  - vm_compute. reflexivity.
  - left. reflexivity.
Defined.

Lemma mixed_content_rewritten_witness :
  let image :=
    obj [("type", str "image");
         ("source", obj [("type", str "base64");
                         ("media_type", str "image/png");
                         ("data", str "iVBORw0KGgo=")])] in
  let parts :=
    [Sample.text_part "Look: "; image; obj [("type", str "tool_use")]] in
  exists items,
    JArr [obj [("type", str "text"); ("text", str "Look: ")];
          obj [("type", str "image_url");
               ("image_url", obj [("url", str "iVBORw0KGgo=");
                                  ("detail", str "high")])]] =
    JArr items /\
    Forall2 (fun part item => rewrite_part part = Some item)
            (filter known_part parts) items.
Proof.
  intros image parts.
  apply (mixed_content_rewritten Sample.no_numbers parts); reflexivity.
Defined.
